(** * download.py: a Google Drive single-file downloader

    A shallow embedding of [download.py] and the properties of its
    control flow: URL parsing, metadata fetch, the choice between raw
    download and export, the extension table and the file writer.

    Python [str] values are modelled as [string]; the bytes of a download
    as [list byte].  The remote service and the local disk are the
    environment: their answers are data ([Service], [Host]) and what the
    program does to them is recorded in a [world] (a chronological trace of
    events and the contents of the disk). *)

From Stdlib Require Import Ascii.
From stdpp Require Import gmap strings list fin_maps.

Local Open Scope char_scope.
Local Open Scope stdpp_scope.

(* Let [simpl] compute string concatenation on literals. *)
#[local] Arguments String.append !_ _ / : simpl nomatch.

(** ** Python string operations used by the program *)

Module Str.

(** [s.startswith(prefix)] *)
Fixpoint startswith (prefix s : string) : bool :=
  match prefix, s with
  | EmptyString, _ => true
  | String a prefix', String b s' => (a =? b)%char && startswith prefix' s'
  | String _ _, EmptyString => false
  end.

(** [s.split(".")]: the segments between the dots, never an empty list. *)
Fixpoint split_dot (s : string) : list string :=
  match s with
  | EmptyString => [EmptyString]
  | String c s' =>
      if (c =? ".")%char then EmptyString :: split_dot s'
      else match split_dot s' with
           | seg :: segs => String c seg :: segs
           | [] => [String c EmptyString]
           end
  end.

(** [l[-1]] on the result of a split. *)
Definition last_segment (l : list string) : string := List.last l EmptyString.

Fixpoint all_chars (p : ascii -> bool) (s : string) : bool :=
  match s with
  | EmptyString => true
  | String c s' => p c && all_chars p s'
  end.

Definition is_empty (s : string) : bool :=
  match s with EmptyString => true | String _ _ => false end.

(** The rest of [s] after the literal [prefix], if [s] begins with it. *)
Fixpoint strip_prefix (prefix s : string) : option string :=
  match prefix, s with
  | EmptyString, _ => Some s
  | String a prefix', String b s' =>
      if (a =? b)%char then strip_prefix prefix' s' else None
  | String _ _, EmptyString => None
  end.

(** [s.endswith("/")] *)
Fixpoint endswith_slash (s : string) : bool :=
  match s with
  | EmptyString => false
  | String c EmptyString => (c =? "/")%char
  | String _ s' => endswith_slash s'
  end.

End Str.

(** ** Exceptions and results *)

Inductive exn :=
| ValueError (msg : string)
| KeyError (key : string)
| TypeError (msg : string)
| OSError (path : string)
| HttpError (error : string).

(** What running a piece of the program ends in: a value, an exception
    on its way up, or a blocking call that never returns. *)
Inductive outcome (A : Type) :=
| Return (a : A)
| Raise (e : exn)
| Blocked.
Arguments Return {A} a.
Arguments Raise {A} e.
Arguments Blocked {A}.

(** ** [parse_URL] *)

(** The character class [[a-zA-Z0-9_-]]. *)
Definition id_char (c : ascii) : bool :=
  (("a" <=? c) && (c <=? "z")) || (("A" <=? c) && (c <=? "Z"))
  || (("0" <=? c) && (c <=? "9")) || (c =? "_") || (c =? "-").

(** The greedy group [([a-zA-Z0-9_-]+)] at the head of [s]: the longest
    run of class characters (empty when the group cannot match). *)
Fixpoint group1 (s : string) : string :=
  match s with
  | String c s' => if id_char c then String c (group1 s') else EmptyString
  | EmptyString => EmptyString
  end.

(** The pattern [/d/([a-zA-Z0-9_-]+)] anchored at the head of [s]. *)
Definition match_here (s : string) : option string :=
  match Str.strip_prefix "/d/" s with
  | Some rest =>
      match group1 rest with
      | EmptyString => None
      | tok => Some tok
      end
  | None => None
  end.

(** [re.search(file_id_pattern, url)] followed by [match.group(1)]: the
    pattern is tried at every position from the left. *)
Fixpoint re_search (s : string) : option string :=
  match match_here s with
  | Some tok => Some tok
  | None =>
      match s with
      | String _ s' => re_search s'
      | EmptyString => None
      end
  end.

Definition parse_URL (url : string) : outcome string :=
  match re_search url with
  | Some file_id => Return file_id
  | None => Raise (ValueError "Invalid URL")
  end.

(** ** [get_file_extension] *)

Definition get_file_extension (mime_type : string) : string :=
  if String.eqb mime_type "application/vnd.google-apps.document" then ".docx"
  else if String.eqb mime_type "application/vnd.google-apps.spreadsheet" then ".xlsx"
  else if String.eqb mime_type "application/vnd.google-apps.presentation" then ".pptx"
  else "".

(** ** The environment: remote service, local host, observable world *)

Abbreviation bytes := (list Byte.byte).

(** The two media requests the program builds; building one sends nothing,
    only [next_chunk] does. *)
Inductive request :=
| GetMedia (file_id : string)
| ExportMedia (file_id mime_type : string).

(** Answer of the service to one [next_chunk()]: a chunk of content and
    whether the transfer is complete, or a transport failure. *)
Inductive chunk_reply :=
| Chunk (content : bytes) (done : bool)
| ChunkError (error : string).

(** Answer to [files().get(fileId=...).execute()]. *)
Inductive meta_reply :=
| Meta (meta : gmap string string)
| MetaError (error : string).

Record Service := {
  files_get : string -> meta_reply;
  media : request -> list chunk_reply
}.

(** Whether [open(path, "wb")] succeeds on this host. *)
Record Host := { openable : string -> bool }.

Inductive event :=
| Printed (line : string)
| FilesGet (file_id : string)
| NextChunk (req : request)
| Open (path : string)
| Written (path : string) (data : bytes).

Record world := World {
  trace : list event;
  disk : gmap string bytes
}.

(** ** The monad of the program: state (the world), exceptions, blocking *)

Definition M (A : Type) : Type := world -> outcome A * world.

Definition run {A} (m : M A) (w : world) : outcome A * world := m w.

#[global] Instance M_ret : MRet M := fun A a w => (Return a, w).

#[global] Instance M_bind : MBind M := fun A B f m w =>
  match m w with
  | (Return a, w') => f a w'
  | (Raise e, w') => (Raise e, w')
  | (Blocked, w') => (Blocked, w')
  end.

Definition raise {A} (e : exn) : M A := fun w => (Raise e, w).

Definition block {A} : M A := fun w => (Blocked, w).

Definition lift {A} (o : outcome A) : M A := fun w => (o, w).

Definition emit (e : event) : M unit :=
  fun w => (Return tt, World (trace w ++ [e]) (disk w)).

Definition print (line : string) : M unit := emit (Printed line).

(** [try: body except HttpError as error: handler]: only [HttpError] is
    caught; every other exception keeps going up. *)
Definition try_except_HttpError {A} (body : M A) (handler : string -> M A) : M A :=
  fun w =>
    match body w with
    | (Raise (HttpError error), w') => handler error w'
    | r => r
    end.

(** [d[key]] on a dict. *)
Definition getitem (d : gmap string string) (key : string) : M string :=
  match d !! key with
  | Some v => mret v
  | None => raise (KeyError key)
  end.

(** ** [get_meta] *)

Definition files_get_execute (service : Service) (file_id : string)
  : M (gmap string string) :=
  emit (FilesGet file_id);;
  match files_get service file_id with
  | Meta meta => mret meta
  | MetaError error => raise (HttpError error)
  end.

Definition get_meta (file_id : string) (service : Service)
  : M (option (string * string)) :=
  try_except_HttpError
    (meta ← files_get_execute service file_id;
     name ← getitem meta "name";
     mime_type ← getitem meta "mimeType";
     mret (Some (name, mime_type)))
    (fun error =>
       print ("HTTP error occurred while fetching meta: " +:+ error);;
       mret None).

(** ** [download_file] and [export_file] *)

(** [while done is False: _, done = downloader.next_chunk()], with the
    buffer the downloader writes each chunk to.  [replies] are the answers
    the service will give to the successive calls; when they run out the
    call blocks. *)
Fixpoint download_loop (req : request) (replies : list chunk_reply) (file : bytes)
  : M bytes :=
  emit (NextChunk req);;
  match replies with
  | [] => block
  | Chunk content done :: replies' =>
      if done then mret (file ++ content)
      else download_loop req replies' (file ++ content)
  | ChunkError error :: _ => raise (HttpError error)
  end.

Definition download_file (file_id : string) (service : Service) : M (option bytes) :=
  try_except_HttpError
    (let req := GetMedia file_id in
     file ← download_loop req (media service req) [];
     mret (Some file))
    (fun error =>
       print ("HTTP error occurred while downloading file: " +:+ error);;
       mret None).

Definition MIME_TYPE_WORD_PREFIX : string :=
  "application/vnd.openxmlformats-officedocument".

Definition MIME_TYPE_INDEX : gmap string string :=
  <["document" := "wordprocessingml.document"]>
  (<["spreadsheet" := "spreadsheetml.sheet"]>
  (<["presentation" := "presentationml.presentation"]> ∅)).

Definition export_file (file_id mime_type : string) (service : Service)
  : M (option bytes) :=
  let document_type := Str.last_segment (Str.split_dot mime_type) in
  target ← getitem MIME_TYPE_INDEX document_type;
  let request_mime_type := MIME_TYPE_WORD_PREFIX +:+ "." +:+ target in
  try_except_HttpError
    (let req := ExportMedia file_id request_mime_type in
     file ← download_loop req (media service req) [];
     mret (Some file))
    (fun error =>
       print ("HTTP error occurred while downloading file: " +:+ error);;
       mret None).

(** ** [save_file] *)

Definition OUTPUT_DIR : string := "output/".

(** [os.path.join(a, b)] (posixpath): an absolute [b] discards [a]. *)
Definition os_path_join (a b : string) : string :=
  if Str.startswith "/" b then b
  else if Str.is_empty a || Str.endswith_slash a then a +:+ b
  else a +:+ "/" +:+ b.

(** [f.write(data)] on a file just opened (and so truncated) at [path]. *)
Definition write (path : string) (data : bytes) : M unit :=
  fun w => (Return tt, World (trace w ++ [Written path data]) (<[path := data]> (disk w))).

(** The failure modelled is [open] refusing the path, as [OSError]; a
    write that fails after the file was opened is outside this model. *)
Definition save_file (host : Host) (data : bytes) (filename : string) : M unit :=
  let path := os_path_join OUTPUT_DIR filename in
  emit (Open path);;
  if openable host path then write path data else raise (OSError path).

(** ** The main block *)

(** [name, mime_type = r]: unpacking [None] is a [TypeError]. *)
Definition unpack (r : option (string * string)) : M (string * string) :=
  match r with
  | Some p => mret p
  | None => raise (TypeError "cannot unpack non-iterable NoneType object")
  end.

(** Lines 175-181: the content retriever.  The content type decides
    between [export_file] (and then the name gets its extension) and
    [download_file] (which parses the URL a second time). *)
Definition retrieve (url file_id name mime_type : string) (service : Service)
  : M (option bytes * string) :=
  if Str.startswith "application/vnd.google-apps" mime_type then
    file_media ← export_file file_id mime_type service;
    let extension := get_file_extension mime_type in
    mret (file_media, name +:+ extension)
  else
    file_id' ← lift (parse_URL url);
    file_media ← download_file file_id' service;
    mret (file_media, name).

(** Lines 182-186: report, and save what was retrieved.  The second
    message is a plain string literal, braces included. *)
Definition report (host : Host) (file_media : option bytes) (name : string) : M unit :=
  match file_media with
  | Some file =>
      print ("Downloaded " +:+ name +:+ "!");;
      save_file host file name
  | None => print "Failed to download file with id {file_id}..."
  end.

(** The body under [if __name__ == "__main__"], from the parsed argument
    on; [service] is what [init()] returned. *)
Definition main (url : string) (service : Service) (host : Host) : M unit :=
  file_id ← lift (parse_URL url);
  r ← get_meta file_id service;
  '(name, mime_type) ← unpack r;
  '(file_media, name) ← retrieve url file_id name mime_type service;
  report host file_media name.

(** ** Vocabulary of the specification of the run *)

(** The content type indicates a native online-document type: the prefix
    test of the main block. *)
Definition indicates_native (mime_type : string) : bool :=
  Str.startswith "application/vnd.google-apps" mime_type.

(** The document subtype: the segment after the last dot. *)
Definition document_type (mime_type : string) : string :=
  Str.last_segment (Str.split_dot mime_type).

(** A chunk that leaves the transfer unfinished. *)
Definition pending (r : chunk_reply) : bool :=
  match r with
  | Chunk _ false => true
  | _ => false
  end.

(** The bytes carried by a list of replies, in order. *)
Fixpoint payload (replies : list chunk_reply) : bytes :=
  match replies with
  | [] => []
  | Chunk content _ :: replies' => content ++ payload replies'
  | ChunkError _ :: replies' => payload replies'
  end.

(** The service completes the transfer with the chunk [content], after
    the unfinished chunks [oks]. *)
Definition completes (replies oks : list chunk_reply) (content : bytes) : Prop :=
  exists rest, replies = oks ++ Chunk content true :: rest /\ forallb pending oks = true.

(** The transfer fails with [error] at chunk number [length oks]. *)
Definition fails_at (replies oks : list chunk_reply) (error : string) : Prop :=
  exists rest, replies = oks ++ ChunkError error :: rest /\ forallb pending oks = true.

(** How many [next_chunk()] calls the loop makes on these replies, and
    what it ends in. *)
Fixpoint calls (replies : list chunk_reply) : nat :=
  match replies with
  | Chunk _ false :: replies' => S (calls replies')
  | _ => 1
  end.

Fixpoint loop_result (replies : list chunk_reply) (file : bytes) : outcome bytes :=
  match replies with
  | [] => Blocked
  | Chunk content done :: replies' =>
      if done then Return (file ++ content) else loop_result replies' (file ++ content)
  | ChunkError error :: _ => Raise (HttpError error)
  end.

Definition is_download (e : event) : bool :=
  match e with NextChunk (GetMedia _) => true | _ => false end.

Definition is_export (e : event) : bool :=
  match e with NextChunk (ExportMedia _ _) => true | _ => false end.

Definition is_file_access (e : event) : bool :=
  match e with Open _ | Written _ _ => true | _ => false end.

(** The world after the events [evs]. *)
Definition after (w : world) (evs : list event) : world :=
  World (trace w ++ evs) (disk w).

(** The [try] block that [download_file] and [export_file] share. *)
Definition try_transfer (req : request) (service : Service) : M (option bytes) :=
  try_except_HttpError
    (file ← download_loop req (media service req) []; mret (Some file))
    (fun error =>
       print ("HTTP error occurred while downloading file: " +:+ error);;
       mret None).

(** The content retriever: one of the two functions, by content type. *)
Definition retriever (file_id mime_type : string) (service : Service) : M (option bytes) :=
  if indicates_native mime_type then export_file file_id mime_type service
  else download_file file_id service.

(** The media request the retriever sends chunk requests for, when the
    content type lets it send one. *)
Definition request_of (file_id mime_type : string) : option request :=
  if indicates_native mime_type then
    target ← MIME_TYPE_INDEX !! document_type mime_type;
    Some (ExportMedia file_id (MIME_TYPE_WORD_PREFIX +:+ "." +:+ target))
  else Some (GetMedia file_id).

(** The file name handed to [save_file]. *)
Definition saved_name (name mime_type : string) : string :=
  if indicates_native mime_type then name +:+ get_file_extension mime_type else name.

(** Sample environments. *)
Definition sample_meta (name mime_type : string) : gmap string string :=
  <["name" := name]> (<["mimeType" := mime_type]> ∅).

Definition sample_service (name mime_type : string) (replies : list chunk_reply)
  : Service :=
  {| files_get := fun _ => Meta (sample_meta name mime_type);
     media := fun _ => replies |}.

Definition failing_service (error : string) : Service :=
  {| files_get := fun _ => MetaError error; media := fun _ => [] |}.

Definition writable_host : Host := {| openable := fun _ => true |}.

Definition read_only_host : Host := {| openable := fun _ => false |}.

Definition empty_world : world := World [] ∅.

(** Every event a computation adds to the trace satisfies [P]. *)
Definition emits {A} (P : event -> Prop) (m : M A) : Prop :=
  forall w, exists evs, trace (run m w).2 = trace w ++ evs /\ Forall P evs.

(** The first thing a computation does is [e]. *)
Definition starts_with {A} (e : event) (m : M A) : Prop :=
  forall w, exists evs, trace (run m w).2 = trace w ++ e :: evs.

(** ** Vocabulary of the specification of the parser *)

(** A token: a non-empty run of class characters. *)
Definition token (tok : string) : bool :=
  negb (Str.is_empty tok) && Str.all_chars id_char tok.

(** The run cannot be extended into [rest]. *)
Definition run_ends (rest : string) : bool :=
  match rest with
  | EmptyString => true
  | String c _ => negb (id_char c)
  end.

(** [s] begins with [/d/] and a class character: a match starts here. *)
Definition starts_match (s : string) : bool :=
  match Str.strip_prefix "/d/" s with
  | Some (String c _) => id_char c
  | _ => false
  end.

(** No match starts at a position inside [pre], in the string [pre +:+ suf]. *)
Fixpoint no_earlier (pre suf : string) : bool :=
  match pre with
  | EmptyString => true
  | String _ pre' => negb (starts_match (pre +:+ suf)) && no_earlier pre' suf
  end.

(** The URL has a substring [/d/<token>]. *)
Definition contains_token (url : string) : Prop :=
  exists pre tok rest, url = pre +:+ "/d/" +:+ tok +:+ rest /\ token tok = true.

(** Decision procedure for [contains_token]. *)
Fixpoint any_match (s : string) : bool :=
  starts_match s ||
  match s with
  | EmptyString => false
  | String _ s' => any_match s'
  end.

(** ** [init]: the credentials *)

(** What the program reads of a [Credentials] object. *)
Record Credentials := {
  valid : bool;
  expired : bool;
  refresh_token : option string;
  to_json : string
}.

(** The calls [init] makes into the auth libraries, and what each one
    answers on this run.  [run_local_server] stands for
    [InstalledAppFlow.from_client_secrets_file] followed by
    [flow.run_local_server(port=0)]. *)
Record Auth := {
  from_authorized_user_file : bytes -> outcome Credentials;
  refresh : Credentials -> outcome Credentials;
  run_local_server : outcome Credentials;
  build : Credentials -> outcome Service
}.

Inductive auth_event :=
| LoadedToken
| Refreshed
| RanLocalServer
| Built (json : string).

(** The state of a whole run: the auth calls made so far, and the world
    of the file transfer (trace and disk). *)
Record session := Session {
  auth_log : list auth_event;
  files : world
}.

Definition Prog (A : Type) : Type := session -> outcome A * session.

Definition run_session {A} (m : Prog A) (s : session) : outcome A * session := m s.

#[global] Instance Prog_ret : MRet Prog := fun A a s => (Return a, s).

#[global] Instance Prog_bind : MBind Prog := fun A B f m s =>
  match m s with
  | (Return a, s') => f a s'
  | (Raise e, s') => (Raise e, s')
  | (Blocked, s') => (Blocked, s')
  end.

(** A computation on the world, run inside a session. *)
Definition in_world {A} (m : M A) : Prog A :=
  fun s => let (o, w') := m (files s) in (o, Session (auth_log s) w').

(** An auth call: it is logged, then it answers. *)
Definition auth_call {A} (e : auth_event) (answer : outcome A) : Prog A :=
  fun s => (answer, Session (auth_log s ++ [e]) (files s)).

(** The bytes of [token.json], when [os.path.exists("token.json")]. *)
Definition token_json : Prog (option bytes) :=
  fun s => (Return (disk (files s) !! "token.json"), s).

(** Truth value of [creds.refresh_token]: [None] and the empty string are false. *)
Definition truthy (t : option string) : bool :=
  match t with
  | Some tok => negb (Str.is_empty tok)
  | None => false
  end.

(** [with open(path, "w") as f: f.write(text)] *)
Definition write_text (host : Host) (path text : string) : M unit :=
  emit (Open path);;
  if openable host path then write path (String.list_byte_of_string text)
  else raise (OSError path).

Definition init (auth : Auth) (host : Host) : Prog Service :=
  stored ← token_json;
  creds ← match stored with
          | Some content =>
              c ← auth_call LoadedToken (from_authorized_user_file auth content);
              mret (Some c)
          | None => mret None
          end;
  creds ← match creds with
          | None =>
              (* [not creds] holds and [creds and ...] does not *)
              c ← auth_call RanLocalServer (run_local_server auth);
              in_world (write_text host "token.json" (to_json c));;
              mret c
          | Some c0 =>
              if negb (valid c0) then
                c ← (if expired c0 && truthy (refresh_token c0)
                     then auth_call Refreshed (refresh auth c0)
                     else auth_call RanLocalServer (run_local_server auth));
                in_world (write_text host "token.json" (to_json c));;
                mret c
              else mret c0
          end;
  auth_call (Built (to_json creds)) (build auth creds).

(** The whole block under [if __name__ == "__main__"], [init()] included,
    from the parsed argument on. *)
Definition main_block (url : string) (auth : Auth) (host : Host) : Prog unit :=
  file_id ← in_world (lift (parse_URL url));
  service ← init auth host;
  r ← in_world (get_meta file_id service);
  '(name, mime_type) ← in_world (unpack r);
  '(file_media, name) ← in_world (retrieve url file_id name mime_type service);
  in_world (report host file_media name).

(** Vocabulary: the auth call [e] was made. *)
Definition made (e : auth_event) (s : session) : Prop := e ∈ auth_log s.

Definition sample_credentials (is_valid is_expired : bool) (token : option string)
    (json : string) : Credentials :=
  {| valid := is_valid; expired := is_expired; refresh_token := token; to_json := json |}.



(** Vocabulary: the auth calls that obtain credentials anew. *)
Definition is_login (e : auth_event) : bool :=
  match e with
  | Refreshed | RanLocalServer => true
  | _ => false
  end.

(** The world after [token.json] was rewritten with [text]. *)
Definition token_saved (w : world) (text : string) : world :=
  World (trace w ++ [Open "token.json";
                     Written "token.json" (String.list_byte_of_string text)])
        (<["token.json" := String.list_byte_of_string text]> (disk w)).

Definition sample_auth (cached : outcome Credentials)
    (refreshed authorized : outcome Credentials) (service : Service) : Auth :=
  {| from_authorized_user_file := fun _ => cached;
     refresh := fun _ => refreshed;
     run_local_server := authorized;
     build := fun _ => Return service |}.

Definition session_with_token : session :=
  Session [] (World [] (<["token.json" := [Byte.x7b; Byte.x7d]]> ∅)).

Definition fresh_session : session := Session [] empty_world.

(** Vocabulary of the choice of strategy, in the words of the
    specification.  The content type begins with the native
    online-document prefix. *)
Definition has_native_prefix (mime_type : string) : Prop :=
  exists rest, mime_type = "application/vnd.google-apps" +:+ rest.

(** The content type is one of the three listed online-document types:
    it has the prefix and its subtype is document, spreadsheet or
    presentation. *)
Definition listed_document_type (mime_type : string) : Prop :=
  has_native_prefix mime_type
  /\ (document_type mime_type = "document"
      \/ document_type mime_type = "spreadsheet"
      \/ document_type mime_type = "presentation").

(** The second half of the claim read with the list as the whole of the
    native types: every content type outside the list is fetched by raw
    download (the first thing after the metadata request is a chunk
    request of [get_media]). *)
Definition unlisted_types_download_raw : Prop :=
  forall url service host file_id meta name mime_type w,
    parse_URL url = Return file_id ->
    files_get service file_id = Meta meta ->
    meta !! "name" = Some name ->
    meta !! "mimeType" = Some mime_type ->
    ~ listed_document_type mime_type ->
    exists evs,
      trace (run (main url service host) w).2 = trace w ++ FilesGet file_id :: evs
      /\ head evs = Some (NextChunk (GetMedia file_id)).


(** * Properties *)

(** ** The URL parser *)

Section ParseURL.

Lemma strip_prefix_Some p s r : Str.strip_prefix p s = Some r <-> s = p +:+ r.
Proof.
  revert s; induction p as [|a p IH]; intros s; simpl.
  - split; [by intros [= ->] | by intros ->].
  - destruct s as [|b s]; [split; discriminate|].
    destruct (Ascii.eqb_spec a b) as [->|Hne].
    + rewrite IH. split; [by intros -> | by intros [= ->]].
    + split; [discriminate | by intros [= -> ->]].
Qed.

Lemma strip_prefix_app p r : Str.strip_prefix p (p +:+ r) = Some r.
Proof. by apply strip_prefix_Some. Qed.

Lemma starts_match_iff s :
  starts_match s = true <->
  exists c rest, s = "/d/" +:+ String c rest /\ id_char c = true.
Proof.
  unfold starts_match. split.
  - destruct (Str.strip_prefix "/d/" s) as [[|c rest]|] eqn:E; try discriminate.
    intros Hc. apply strip_prefix_Some in E. eauto.
  - intros (c & rest & -> & Hc). by rewrite strip_prefix_app.
Qed.

Lemma group1_app tok rest :
  Str.all_chars id_char tok = true -> run_ends rest = true ->
  group1 (tok +:+ rest) = tok.
Proof.
  intros Htok Hrest. induction tok as [|c tok IH]; simpl in *.
  - destruct rest as [|c rest]; [done|].
    apply negb_true_iff in Hrest. simpl. by rewrite Hrest.
  - apply andb_true_iff in Htok as [-> Htok]. by rewrite IH.
Qed.

Lemma group1_split s :
  exists rest, s = group1 s +:+ rest
               /\ Str.all_chars id_char (group1 s) = true /\ run_ends rest = true.
Proof.
  induction s as [|c s (rest & Heq & Hall & Hend)]; simpl.
  - by exists EmptyString.
  - destruct (id_char c) eqn:Hc.
    + exists rest. simpl. rewrite Hc, Hall. by rewrite <- Heq.
    + exists (String c s). simpl. by rewrite Hc.
Qed.

Lemma match_here_None s : match_here s = None <-> starts_match s = false.
Proof.
  unfold match_here, starts_match.
  destruct (Str.strip_prefix "/d/" s) as [[|c rest]|]; simpl; [done| |done].
  destruct (id_char c); split; congruence.
Qed.

Lemma match_here_token tok rest :
  token tok = true -> run_ends rest = true ->
  match_here ("/d/" +:+ tok +:+ rest) = Some tok.
Proof.
  unfold token, match_here. intros [Hne Hall]%andb_true_iff Hend.
  rewrite strip_prefix_app, group1_app by done. by destruct tok.
Qed.

Lemma match_here_Some s tok :
  match_here s = Some tok ->
  exists rest, s = "/d/" +:+ tok +:+ rest /\ token tok = true /\ run_ends rest = true.
Proof.
  unfold match_here.
  destruct (Str.strip_prefix "/d/" s) as [r|] eqn:E; [|discriminate].
  apply strip_prefix_Some in E.
  destruct (group1_split r) as (rest & Heq & Hall & Hend).
  destruct (group1 r) as [|c g] eqn:G; [discriminate|].
  intros [= <-]. exists rest. unfold token. rewrite Hall. simpl.
  split; [|done]. by rewrite E, Heq.
Qed.

Lemma re_search_unfold s :
  re_search s =
  match match_here s with
  | Some tok => Some tok
  | None => match s with String _ s' => re_search s' | EmptyString => None end
  end.
Proof. by destruct s. Qed.

#[local] Arguments re_search : simpl never.

Lemma re_search_skip pre suf :
  no_earlier pre suf = true -> re_search (pre +:+ suf) = re_search suf.
Proof.
  induction pre as [|c pre IH]; [done|].
  cbn [no_earlier]. intros [Hhere Hrest]%andb_true_iff.
  apply negb_true_iff, match_here_None in Hhere.
  rewrite re_search_unfold, Hhere. simpl. auto.
Qed.

Lemma re_search_Some s tok :
  re_search s = Some tok ->
  exists pre rest,
    s = pre +:+ "/d/" +:+ tok +:+ rest /\ token tok = true
    /\ run_ends rest = true /\ no_earlier pre ("/d/" +:+ tok +:+ rest) = true.
Proof.
  induction s as [|c s IH]; rewrite re_search_unfold.
  - destruct (match_here EmptyString) eqn:E; [|discriminate].
    intros [= ->]. apply match_here_Some in E as (rest & ? & ? & ?).
    by exists EmptyString, rest.
  - destruct (match_here (String c s)) eqn:E.
    + intros [= ->]. apply match_here_Some in E as (rest & ? & ? & ?).
      by exists EmptyString, rest.
    + intros (pre & rest & -> & Htok & Hend & Hpre)%IH.
      exists (String c pre), rest. repeat split; try done.
      cbn [no_earlier]. apply andb_true_iff. split; [|done].
      by apply negb_true_iff, match_here_None.
Qed.

Lemma token_starts_match tok rest :
  token tok = true -> starts_match ("/d/" +:+ tok +:+ rest) = true.
Proof.
  unfold token. intros [Hne Hall]%andb_true_iff.
  apply starts_match_iff. destruct tok as [|c tok]; [done|].
  simpl in Hall. apply andb_true_iff in Hall as [Hc _]. by exists c, (tok +:+ rest).
Qed.

Lemma search_finds pre suf :
  starts_match suf = true -> exists tok, re_search (pre +:+ suf) = Some tok.
Proof.
  intros Hsuf. induction pre as [|c pre [tok IH]]; simpl; rewrite re_search_unfold.
  - destruct (match_here suf) eqn:E; [eauto|].
    apply match_here_None in E. congruence.
  - destruct (match_here _); simpl; eauto.
Qed.

Lemma contains_token_search url :
  contains_token url -> exists tok, re_search url = Some tok.
Proof.
  intros (pre & tok & rest & -> & Htok).
  by apply search_finds, token_starts_match.
Qed.

Lemma any_match_app pre suf :
  starts_match suf = true -> any_match (pre +:+ suf) = true.
Proof.
  intros Hsuf. induction pre as [|c pre IH]; simpl.
  - destruct suf; cbn [any_match]; by rewrite Hsuf.
  - rewrite IH. apply orb_true_r.
Qed.

Lemma any_match_iff url : any_match url = true <-> contains_token url.
Proof.
  split.
  - induction url as [|c url IH]; cbn [any_match]; intros H%orb_true_iff.
    + by destruct H.
    + destruct H as [H|H].
      * apply starts_match_iff in H as (a & rest & -> & Ha).
        exists EmptyString, (String a EmptyString), rest.
        split; [done|]. unfold token. simpl. by rewrite Ha.
      * destruct (IH H) as (pre & tok & rest & -> & Htok).
        by exists (String c pre), tok, rest.
  - intros (pre & tok & rest & -> & Htok).
    by apply any_match_app, token_starts_match.
Qed.

Lemma no_earlier_iff pre suf :
  no_earlier pre suf = true <->
  forall p1 p2, pre = p1 +:+ p2 -> p2 <> EmptyString ->
                starts_match (p2 +:+ suf) = false.
Proof.
  induction pre as [|c pre IH]; cbn [no_earlier].
  - split; [|done]. intros _ [|? p1] [|? p2]; simpl; done.
  - rewrite andb_true_iff, negb_true_iff, IH. split.
    + intros [Hhere Hlater] [|a p1] p2; simpl.
      * by intros <- _.
      * intros [= <- ->]. by apply (Hlater p1 p2).
    + intros H. split.
      * by apply (H EmptyString (String c pre)).
      * intros p1 p2 ->. by apply (H (String c p1) p2).
Qed.

End ParseURL.

(** C1. [parse_URL] returns the token of the leftmost match of
    [/d/<token>]: for a URL [pre +:+ "/d/" +:+ tok +:+ rest] where [tok] is a
    non-empty run of characters of [[a-zA-Z0-9_-]] that [rest] does not
    extend (the maximal run) and no [/d/] at an earlier position is
    followed by a class character (the first one), the result is exactly
    [tok]; every URL that contains some [/d/<token>] decomposes in this way,
    so it returns such a token; and a string with no such substring makes
    it raise [ValueError("Invalid URL")].  The function is pure: its result
    is an [outcome], it touches no state. *)
Theorem parse_URL_spec :
  (forall pre tok rest,
      token tok = true -> run_ends rest = true ->
      no_earlier pre ("/d/" +:+ tok +:+ rest) = true ->
      parse_URL (pre +:+ "/d/" +:+ tok +:+ rest) = Return tok)
  /\ (forall url,
        contains_token url ->
        exists pre tok rest,
          url = pre +:+ "/d/" +:+ tok +:+ rest
          /\ token tok = true /\ run_ends rest = true
          /\ no_earlier pre ("/d/" +:+ tok +:+ rest) = true
          /\ parse_URL url = Return tok)
  /\ (forall url,
        ~ contains_token url -> parse_URL url = Raise (ValueError "Invalid URL")).
Proof.
  split; [|split].
  - intros pre tok rest Htok Hend Hpre. unfold parse_URL.
    rewrite re_search_skip by done.
    rewrite re_search_unfold, match_here_token; done.
  - intros url [tok Hs]%contains_token_search.
    destruct (re_search_Some _ _ Hs) as (pre & rest & Hurl & Htok & Hend & Hpre).
    exists pre, tok, rest. unfold parse_URL. by rewrite Hs.
  - intros url Hno. unfold parse_URL.
    destruct (re_search url) as [tok|] eqn:Hs; [|done].
    destruct Hno. apply re_search_Some in Hs as (pre & rest & -> & Htok & _).
    by exists pre, tok, rest.
Qed.

Lemma parse_URL_spec_witness :
  parse_URL ("https://drive.google.com/file" +:+ "/d/" +:+ "1aBcD_23xyZ" +:+ "/view")
  = Return "1aBcD_23xyZ"
  /\ parse_URL "https://drive.google.com/drive/my-drive" = Raise (ValueError "Invalid URL").
Proof.
  split.
  - apply (proj1 parse_URL_spec); reflexivity.
  - apply (proj2 (proj2 parse_URL_spec)).
    intros H%any_match_iff. vm_compute in H. discriminate H.
Defined.

Example parse_URL_share_link :
  parse_URL "https://drive.google.com/file/d/1aBcD_23xyZ/view" = Return "1aBcD_23xyZ".
Proof. reflexivity. Qed.

(** The leftmost match counts, not the leftmost [/d/]. *)
Example parse_URL_leftmost_match : parse_URL "/d//d/abc" = Return "abc".
Proof. reflexivity. Qed.

(** The token stops at the first character outside the class. *)
Example parse_URL_stops_at_dot : parse_URL "x/d/abc.def/view" = Return "abc".
Proof. reflexivity. Qed.

(** ** The extension resolver *)

(** C5. [get_file_extension] is a total function of its argument alone:
    [.docx], [.xlsx] and [.pptx] for the three Google Apps content types,
    and the empty string for every other string. *)
Theorem get_file_extension_table :
  get_file_extension "application/vnd.google-apps.document" = ".docx"
  /\ get_file_extension "application/vnd.google-apps.spreadsheet" = ".xlsx"
  /\ get_file_extension "application/vnd.google-apps.presentation" = ".pptx"
  /\ (forall mime_type,
        mime_type <> "application/vnd.google-apps.document" ->
        mime_type <> "application/vnd.google-apps.spreadsheet" ->
        mime_type <> "application/vnd.google-apps.presentation" ->
        get_file_extension mime_type = "").
Proof.
  repeat split. intros mime_type Hd Hs Hp. unfold get_file_extension.
  by repeat match goal with
     | |- context [String.eqb ?a ?b] => destruct (String.eqb_spec a b)
     end.
Qed.

Lemma get_file_extension_table_witness :
  get_file_extension "application/pdf" = ""
  /\ get_file_extension "application/vnd.google-apps.drawing" = "".
Proof.
  split; apply (proj2 (proj2 (proj2 get_file_extension_table))); discriminate.
Defined.

(** ** Running the program *)

Section Running.

Lemma run_bind {A B} (m : M A) (f : A -> M B) w :
  run (m ≫= f) w =
  match run m w with
  | (Return a, w') => run (f a) w'
  | (Raise e, w') => (Raise e, w')
  | (Blocked, w') => (Blocked, w')
  end.
Proof. reflexivity. Qed.

Lemma run_try {A} (body : M A) handler w :
  run (try_except_HttpError body handler) w =
  match run body w with
  | (Raise (HttpError error), w') => run (handler error) w'
  | r => r
  end.
Proof. reflexivity. Qed.

Lemma after_after w evs1 evs2 : after (after w evs1) evs2 = after w (evs1 ++ evs2).
Proof. unfold after. simpl. by rewrite app_assoc. Qed.

Lemma run_ret {A} (a : A) w : run (mret a) w = (Return a, w).
Proof. reflexivity. Qed.

Lemma run_raise {A} e w : run (raise e : M A) w = (Raise e, w).
Proof. reflexivity. Qed.

Lemma run_lift {A} (o : outcome A) w : run (lift o) w = (o, w).
Proof. reflexivity. Qed.

Lemma run_emit e w : run (emit e) w = (Return tt, after w [e]).
Proof. reflexivity. Qed.

Lemma run_print line w : run (print line) w = (Return tt, after w [Printed line]).
Proof. reflexivity. Qed.

(** The loop makes [calls replies] requests and ends as [loop_result] says. *)
Lemma download_loop_run req replies file w :
  run (download_loop req replies file) w =
  (loop_result replies file, after w (replicate (calls replies) (NextChunk req))).
Proof.
  revert file w. induction replies as [|[content [|]|error] replies IH]; intros file w;
    try reflexivity.
  cbn [download_loop]. rewrite run_bind, run_emit, IH, after_after.
  reflexivity.
Qed.

Lemma loop_completes oks content rest file :
  forallb pending oks = true ->
  loop_result (oks ++ Chunk content true :: rest) file
    = Return (file ++ payload oks ++ content)
  /\ calls (oks ++ Chunk content true :: rest) = S (length oks).
Proof.
  revert file. induction oks as [|[c [|]|e] oks IH]; intros file Hoks; try done.
  destruct (IH (file ++ c) Hoks) as [Hres Hcalls]. simpl.
  rewrite Hres, Hcalls. by rewrite <- !app_assoc.
Qed.

Lemma loop_fails oks error rest file :
  forallb pending oks = true ->
  loop_result (oks ++ ChunkError error :: rest) file = Raise (HttpError error)
  /\ calls (oks ++ ChunkError error :: rest) = S (length oks).
Proof.
  revert file. induction oks as [|[c [|]|e] oks IH]; intros file Hoks; try done.
  destruct (IH (file ++ c) Hoks) as [Hres Hcalls]. simpl.
  by rewrite Hres, Hcalls.
Qed.

Lemma completes_run replies oks content file :
  completes replies oks content ->
  loop_result replies file = Return (file ++ payload oks ++ content)
  /\ calls replies = S (length oks).
Proof. intros (rest & -> & Hoks). by apply loop_completes. Qed.

Lemma fails_at_run replies oks error file :
  fails_at replies oks error ->
  loop_result replies file = Raise (HttpError error)
  /\ calls replies = S (length oks).
Proof. intros (rest & -> & Hoks). by apply loop_fails. Qed.

Lemma try_transfer_run req service w :
  run (try_transfer req service) w =
  let w1 := after w (replicate (calls (media service req)) (NextChunk req)) in
  match loop_result (media service req) [] with
  | Return file => (Return (Some file), w1)
  | Raise (HttpError error) =>
      (Return None,
       after w1 [Printed ("HTTP error occurred while downloading file: " +:+ error)])
  | Raise e => (Raise e, w1)
  | Blocked => (Blocked, w1)
  end.
Proof.
  unfold try_transfer. rewrite run_try, run_bind, download_loop_run.
  by destruct (loop_result _ _) as [file|[]|].
Qed.

Lemma download_file_run file_id service w :
  run (download_file file_id service) w = run (try_transfer (GetMedia file_id) service) w.
Proof. reflexivity. Qed.

Lemma export_file_run file_id mime_type target service w :
  MIME_TYPE_INDEX !! document_type mime_type = Some target ->
  run (export_file file_id mime_type service) w =
  run (try_transfer (ExportMedia file_id (MIME_TYPE_WORD_PREFIX +:+ "." +:+ target))
         service) w.
Proof.
  intros Hidx. unfold export_file. rewrite run_bind.
  unfold getitem. fold (document_type mime_type). by rewrite Hidx.
Qed.

Lemma export_file_unsupported file_id mime_type service w :
  MIME_TYPE_INDEX !! document_type mime_type = None ->
  run (export_file file_id mime_type service) w
  = (Raise (KeyError (document_type mime_type)), w).
Proof.
  intros Hidx. unfold export_file. rewrite run_bind.
  unfold getitem. fold (document_type mime_type). by rewrite Hidx.
Qed.

Lemma MIME_TYPE_INDEX_None key :
  key <> "document" -> key <> "spreadsheet" -> key <> "presentation" ->
  MIME_TYPE_INDEX !! key = None.
Proof.
  intros. unfold MIME_TYPE_INDEX.
  by rewrite !lookup_insert_ne, lookup_empty.
Qed.

Lemma retrieve_download_run url file_id name mime_type service w :
  indicates_native mime_type = false ->
  parse_URL url = Return file_id ->
  run (retrieve url file_id name mime_type service) w =
  match run (download_file file_id service) w with
  | (Return file_media, w') => (Return (file_media, name), w')
  | (Raise e, w') => (Raise e, w')
  | (Blocked, w') => (Blocked, w')
  end.
Proof.
  unfold indicates_native, retrieve. intros -> Hurl.
  rewrite run_bind. rewrite run_lift, Hurl.
  rewrite run_bind. by destruct (run (download_file _ _) w) as [[|e|] w'].
Qed.

Lemma retrieve_export_run url file_id name mime_type service w :
  indicates_native mime_type = true ->
  run (retrieve url file_id name mime_type service) w =
  match run (export_file file_id mime_type service) w with
  | (Return file_media, w') =>
      (Return (file_media, name +:+ get_file_extension mime_type), w')
  | (Raise e, w') => (Raise e, w')
  | (Blocked, w') => (Blocked, w')
  end.
Proof.
  unfold indicates_native, retrieve. intros ->.
  rewrite run_bind. by destruct (run (export_file _ _ _) w) as [[|e|] w'].
Qed.

(** Up to the retriever, a run whose metadata fetch succeeds. *)
Lemma main_run url service host file_id meta name mime_type w :
  parse_URL url = Return file_id ->
  files_get service file_id = Meta meta ->
  meta !! "name" = Some name ->
  meta !! "mimeType" = Some mime_type ->
  run (main url service host) w =
  run (retrieve url file_id name mime_type service
         ≫= (fun '(file_media, name') => report host file_media name'))
      (after w [FilesGet file_id]).
Proof.
  intros Hurl Hmeta Hname Hmime. unfold main.
  rewrite run_bind. rewrite run_lift, Hurl.
  rewrite run_bind. unfold get_meta. rewrite run_try, run_bind.
  unfold files_get_execute. rewrite run_bind, run_emit, Hmeta, run_ret.
  cbv beta iota. unfold getitem. rewrite Hname, Hmime. reflexivity.
Qed.

Lemma report_saved host file name w :
  openable host (os_path_join OUTPUT_DIR name) = true ->
  run (report host (Some file) name) w =
  (Return tt,
   World (trace w ++ [Printed ("Downloaded " +:+ name +:+ "!");
                      Open (os_path_join OUTPUT_DIR name);
                      Written (os_path_join OUTPUT_DIR name) file])
         (<[os_path_join OUTPUT_DIR name := file]> (disk w))).
Proof.
  intros Hopen. unfold report, save_file.
  rewrite run_bind, run_print, run_bind, run_emit, Hopen.
  unfold run, write, after. simpl. by rewrite <- !app_assoc.
Qed.

Lemma report_not_saved host file name w :
  openable host (os_path_join OUTPUT_DIR name) = false ->
  run (report host (Some file) name) w =
  (Raise (OSError (os_path_join OUTPUT_DIR name)),
   after w [Printed ("Downloaded " +:+ name +:+ "!");
            Open (os_path_join OUTPUT_DIR name)]).
Proof.
  intros Hopen. unfold report, save_file.
  rewrite run_bind, run_print, run_bind, run_emit, Hopen.
  unfold run, raise. by rewrite after_after.
Qed.

Lemma report_failed host name w :
  run (report host None name) w =
  (Return tt, after w [Printed "Failed to download file with id {file_id}..."]).
Proof. reflexivity. Qed.

Lemma retrieve_run url file_id name mime_type service w :
  parse_URL url = Return file_id ->
  run (retrieve url file_id name mime_type service) w =
  match run (retriever file_id mime_type service) w with
  | (Return file_media, w') => (Return (file_media, saved_name name mime_type), w')
  | (Raise e, w') => (Raise e, w')
  | (Blocked, w') => (Blocked, w')
  end.
Proof.
  intros Hurl. unfold retriever, saved_name.
  destruct (indicates_native mime_type) eqn:Hnative.
  - by apply retrieve_export_run.
  - by apply retrieve_download_run.
Qed.

(** A run whose metadata fetch succeeds, in terms of the retriever. *)
Lemma main_retriever_run url service host file_id meta name mime_type w :
  parse_URL url = Return file_id ->
  files_get service file_id = Meta meta ->
  meta !! "name" = Some name ->
  meta !! "mimeType" = Some mime_type ->
  run (main url service host) w =
  match run (retriever file_id mime_type service) (after w [FilesGet file_id]) with
  | (Return file_media, w') =>
      run (report host file_media (saved_name name mime_type)) w'
  | (Raise e, w') => (Raise e, w')
  | (Blocked, w') => (Blocked, w')
  end.
Proof.
  intros Hurl Hmeta Hname Hmime.
  rewrite (main_run _ _ _ _ _ _ _ _ Hurl Hmeta Hname Hmime).
  rewrite run_bind, retrieve_run by done.
  by destruct (run (retriever _ _ _) _) as [[|e|] w'].
Qed.

(** What the retriever does on the request it sends. *)
Lemma retriever_run file_id mime_type service req w :
  request_of file_id mime_type = Some req ->
  run (retriever file_id mime_type service) w = run (try_transfer req service) w.
Proof.
  unfold request_of, retriever.
  destruct (indicates_native mime_type).
  - destruct (MIME_TYPE_INDEX !! document_type mime_type) as [target|] eqn:Hidx;
      [|discriminate].
    intros [= <-]. by apply export_file_run.
  - by intros [= <-].
Qed.

Lemma retriever_fails file_id mime_type service req oks error w :
  request_of file_id mime_type = Some req ->
  fails_at (media service req) oks error ->
  run (retriever file_id mime_type service) w =
  (Return None,
   after w (replicate (S (length oks)) (NextChunk req)
            ++ [Printed ("HTTP error occurred while downloading file: " +:+ error)])).
Proof.
  intros Hreq Hfail. rewrite (retriever_run _ _ _ _ _ Hreq), try_transfer_run.
  destruct (fails_at_run _ _ _ [] Hfail) as [-> ->].
  cbv zeta. by rewrite after_after.
Qed.

Lemma retriever_completes file_id mime_type service req oks content w :
  request_of file_id mime_type = Some req ->
  completes (media service req) oks content ->
  run (retriever file_id mime_type service) w =
  (Return (Some (payload oks ++ content)),
   after w (replicate (S (length oks)) (NextChunk req))).
Proof.
  intros Hreq Hdone. rewrite (retriever_run _ _ _ _ _ Hreq), try_transfer_run.
  by destruct (completes_run _ _ _ [] Hdone) as [-> ->].
Qed.

(** A run whose transfer completes. *)
Lemma main_completes url service host file_id meta name mime_type req oks content w :
  parse_URL url = Return file_id ->
  files_get service file_id = Meta meta ->
  meta !! "name" = Some name ->
  meta !! "mimeType" = Some mime_type ->
  request_of file_id mime_type = Some req ->
  completes (media service req) oks content ->
  run (main url service host) w =
  run (report host (Some (payload oks ++ content)) (saved_name name mime_type))
      (after w (FilesGet file_id :: replicate (S (length oks)) (NextChunk req))).
Proof.
  intros Hurl Hmeta Hname Hmime Hreq Hdone.
  rewrite (main_retriever_run _ _ _ _ _ _ _ _ Hurl Hmeta Hname Hmime).
  rewrite (retriever_completes _ _ _ _ _ _ _ Hreq Hdone).
  by rewrite after_after.
Qed.

(** A run whose transfer fails. *)
Lemma main_fails url service host file_id meta name mime_type req oks error w :
  parse_URL url = Return file_id ->
  files_get service file_id = Meta meta ->
  meta !! "name" = Some name ->
  meta !! "mimeType" = Some mime_type ->
  request_of file_id mime_type = Some req ->
  fails_at (media service req) oks error ->
  run (main url service host) w =
  (Return tt,
   after w (FilesGet file_id :: replicate (S (length oks)) (NextChunk req)
            ++ [Printed ("HTTP error occurred while downloading file: " +:+ error);
                Printed "Failed to download file with id {file_id}..."])).
Proof.
  intros Hurl Hmeta Hname Hmime Hreq Hfail.
  rewrite (main_retriever_run _ _ _ _ _ _ _ _ Hurl Hmeta Hname Hmime).
  rewrite (retriever_fails _ _ _ _ _ _ _ Hreq Hfail).
  rewrite report_failed, !after_after. do 2 f_equal.
  simpl. by rewrite <- app_assoc.
Qed.

End Running.

(** ** Helper facts on file names *)

Example document_type_of_drawing :
  document_type "application/vnd.google-apps.drawing" = "drawing".
Proof. reflexivity. Qed.

Example os_path_join_relative : os_path_join OUTPUT_DIR "a.bin" = "output/a.bin".
Proof. reflexivity. Qed.

Example os_path_join_absolute : os_path_join OUTPUT_DIR "/tmp/a.bin" = "/tmp/a.bin".
Proof. reflexivity. Qed.

Lemma os_path_join_output filename :
  os_path_join OUTPUT_DIR filename =
  if Str.startswith "/" filename then filename else OUTPUT_DIR +:+ filename.
Proof. unfold os_path_join. by destruct (Str.startswith "/" filename). Qed.

Lemma request_of_download file_id mime_type :
  indicates_native mime_type = false ->
  request_of file_id mime_type = Some (GetMedia file_id).
Proof. unfold request_of. by intros ->. Qed.

Lemma request_of_export file_id mime_type target :
  indicates_native mime_type = true ->
  MIME_TYPE_INDEX !! document_type mime_type = Some target ->
  request_of file_id mime_type
  = Some (ExportMedia file_id (MIME_TYPE_WORD_PREFIX +:+ "." +:+ target)).
Proof. unfold request_of. by intros -> ->. Qed.

(** ** Transport failures *)

(** C2. When the service fails a chunk request of a raw download or of an
    export (whichever request the content type leads to, after any number
    of unfinished chunks), the retriever prints the error and returns
    [None]; the run then prints the failure message and ends.  The world
    after the run has the disk it started with and a trace without a file
    access, and the failed chunk request is the last request sent. *)
Theorem transport_failure_no_file
    url service host file_id meta name mime_type req oks error w :
  parse_URL url = Return file_id ->
  files_get service file_id = Meta meta ->
  meta !! "name" = Some name ->
  meta !! "mimeType" = Some mime_type ->
  request_of file_id mime_type = Some req ->
  fails_at (media service req) oks error ->
  let requests := replicate (S (length oks)) (NextChunk req) in
  let reported := Printed ("HTTP error occurred while downloading file: " +:+ error) in
  run (retriever file_id mime_type service) w = (Return None, after w (requests ++ [reported]))
  /\ run (main url service host) w =
     (Return tt,
      after w (FilesGet file_id :: requests
               ++ [reported; Printed "Failed to download file with id {file_id}..."]))
  /\ disk (run (main url service host) w).2 = disk w
  /\ Forall (fun e => is_file_access e = false)
            (FilesGet file_id :: requests
             ++ [reported; Printed "Failed to download file with id {file_id}..."]).
Proof.
  intros Hurl Hmeta Hname Hmime Hreq Hfail requests reported.
  split; [by apply retriever_fails|].
  rewrite (main_fails _ _ host _ _ _ _ _ _ _ w Hurl Hmeta Hname Hmime Hreq Hfail).
  repeat split.
  apply Forall_cons. split; [done|].
  apply Forall_app. split; [by apply Forall_replicate|].
  by repeat constructor.
Qed.

Lemma transport_failure_no_file_witness :
  run (main "https://drive.google.com/file/d/abc/view"
         (sample_service "a.bin" "application/octet-stream"
            [Chunk [Byte.x01] false; ChunkError "503"])
         writable_host) empty_world
  = (Return tt,
     after empty_world
       [FilesGet "abc"; NextChunk (GetMedia "abc"); NextChunk (GetMedia "abc");
        Printed "HTTP error occurred while downloading file: 503";
        Printed "Failed to download file with id {file_id}..."]).
Proof.
  apply (transport_failure_no_file
           "https://drive.google.com/file/d/abc/view"
           (sample_service "a.bin" "application/octet-stream"
              [Chunk [Byte.x01] false; ChunkError "503"])
           writable_host "abc" (sample_meta "a.bin" "application/octet-stream")
           "a.bin" "application/octet-stream" (GetMedia "abc")
           [Chunk [Byte.x01] false] "503" empty_world);
    try reflexivity.
  by exists [].
Defined.

(** C3. When the metadata request fails, [get_meta] prints the error and
    returns [None]; unpacking that result raises [TypeError], which ends
    the run.  The trace of the run holds the metadata request and the
    printed error and nothing else: no chunk request of a download or an
    export and no file access, and the disk is as it was. *)
Theorem meta_failure_stops_run url service host file_id error w :
  parse_URL url = Return file_id ->
  files_get service file_id = MetaError error ->
  let evs := [FilesGet file_id; Printed ("HTTP error occurred while fetching meta: " +:+ error)] in
  run (get_meta file_id service) w = (Return None, after w evs)
  /\ run (main url service host) w =
     (Raise (TypeError "cannot unpack non-iterable NoneType object"), after w evs).
Proof.
  intros Hurl Hmeta evs.
  assert (run (get_meta file_id service) w = (Return None, after w evs)) as Hget.
  { unfold get_meta. rewrite run_try, run_bind.
    unfold files_get_execute. rewrite run_bind, run_emit, Hmeta.
    rewrite run_raise.
    rewrite run_bind, run_print, run_ret. by rewrite after_after. }
  split; [done|].
  unfold main. rewrite run_bind, run_lift, Hurl, run_bind, Hget. reflexivity.
Qed.

Lemma meta_failure_stops_run_witness :
  run (main "https://drive.google.com/file/d/abc/view" (failing_service "404") writable_host)
      empty_world
  = (Raise (TypeError "cannot unpack non-iterable NoneType object"),
     after empty_world
       [FilesGet "abc"; Printed "HTTP error occurred while fetching meta: 404"]).
Proof.
  apply (meta_failure_stops_run
           "https://drive.google.com/file/d/abc/view" (failing_service "404")
           writable_host "abc" "404" empty_world); reflexivity.
Defined.

(** ** Unsupported online-document types *)

(** C6. For a content type that takes the export path and whose document
    subtype (the segment after the last dot) is not [document],
    [spreadsheet] or [presentation], [export_file] raises [KeyError] on the
    subtype without sending anything, and nothing catches it: the run ends
    in that [KeyError] with the metadata request as its only event. *)
Theorem unsupported_document_type
    url service host file_id meta name mime_type w :
  parse_URL url = Return file_id ->
  files_get service file_id = Meta meta ->
  meta !! "name" = Some name ->
  meta !! "mimeType" = Some mime_type ->
  indicates_native mime_type = true ->
  document_type mime_type <> "document" ->
  document_type mime_type <> "spreadsheet" ->
  document_type mime_type <> "presentation" ->
  run (export_file file_id mime_type service) w
    = (Raise (KeyError (document_type mime_type)), w)
  /\ run (main url service host) w
    = (Raise (KeyError (document_type mime_type)), after w [FilesGet file_id]).
Proof.
  intros Hurl Hmeta Hname Hmime Hnative Hd Hs Hp.
  pose proof (MIME_TYPE_INDEX_None _ Hd Hs Hp) as Hidx.
  split; [by apply export_file_unsupported|].
  rewrite (main_retriever_run _ _ _ _ _ _ _ _ Hurl Hmeta Hname Hmime).
  unfold retriever. rewrite Hnative.
  by rewrite export_file_unsupported.
Qed.

Lemma unsupported_document_type_witness :
  run (main "https://drive.google.com/file/d/abc/view"
         (sample_service "sketch" "application/vnd.google-apps.drawing"
            [Chunk [Byte.x01] true])
         writable_host) empty_world
  = (Raise (KeyError "drawing"), after empty_world [FilesGet "abc"]).
Proof.
  apply (unsupported_document_type
           "https://drive.google.com/file/d/abc/view"
           (sample_service "sketch" "application/vnd.google-apps.drawing"
              [Chunk [Byte.x01] true])
           writable_host "abc" (sample_meta "sketch" "application/vnd.google-apps.drawing")
           "sketch" "application/vnd.google-apps.drawing" empty_world);
    (reflexivity || discriminate).
Defined.

(** ** Saving what was retrieved *)

(** X6. A raw download that completes, under a display name that is not
    an absolute path: one file is written, at [output/<name>], holding the
    bytes of the chunks in order, whatever was there before. *)
Lemma raw_download_saved
    url service host file_id meta name mime_type oks content w :
  parse_URL url = Return file_id ->
  files_get service file_id = Meta meta ->
  meta !! "name" = Some name ->
  meta !! "mimeType" = Some mime_type ->
  indicates_native mime_type = false ->
  completes (media service (GetMedia file_id)) oks content ->
  Str.startswith "/" name = false ->
  openable host (OUTPUT_DIR +:+ name) = true ->
  run (main url service host) w =
  (Return tt,
   World (trace w ++ FilesGet file_id
            :: replicate (S (length oks)) (NextChunk (GetMedia file_id))
            ++ [Printed ("Downloaded " +:+ name +:+ "!");
                Open (OUTPUT_DIR +:+ name);
                Written (OUTPUT_DIR +:+ name) (payload oks ++ content)])
         (<[OUTPUT_DIR +:+ name := payload oks ++ content]> (disk w))).
Proof.
  intros Hurl Hmeta Hname Hmime Hnative Hdone Hrel Hopen.
  rewrite (main_completes _ _ host _ _ _ _ _ _ _ w Hurl Hmeta Hname Hmime
             (request_of_download _ _ Hnative) Hdone).
  unfold saved_name. rewrite Hnative.
  assert (os_path_join OUTPUT_DIR name = OUTPUT_DIR +:+ name) as Hpath
    by (by rewrite os_path_join_output, Hrel).
  rewrite report_saved by (by rewrite Hpath).
  rewrite Hpath. unfold after. cbn [trace disk]. by rewrite <- app_assoc.
Qed.

(** C7, where the code departs from it.  A raw download that completes
    under a display name beginning with [/]: [os.path.join] drops
    [OUTPUT_DIR], and the file is written at the display name taken as an
    absolute path, which is not under [output/]. *)
Theorem raw_download_absolute_name
    url service host file_id meta name mime_type oks content w :
  parse_URL url = Return file_id ->
  files_get service file_id = Meta meta ->
  meta !! "name" = Some name ->
  meta !! "mimeType" = Some mime_type ->
  indicates_native mime_type = false ->
  completes (media service (GetMedia file_id)) oks content ->
  Str.startswith "/" name = true ->
  openable host name = true ->
  run (main url service host) w =
  (Return tt,
   World (trace w ++ FilesGet file_id
            :: replicate (S (length oks)) (NextChunk (GetMedia file_id))
            ++ [Printed ("Downloaded " +:+ name +:+ "!");
                Open name; Written name (payload oks ++ content)])
         (<[name := payload oks ++ content]> (disk w)))
  /\ Str.startswith OUTPUT_DIR name = false.
Proof.
  intros Hurl Hmeta Hname Hmime Hnative Hdone Habs Hopen.
  rewrite (main_completes _ _ host _ _ _ _ _ _ _ w Hurl Hmeta Hname Hmime
             (request_of_download _ _ Hnative) Hdone).
  unfold saved_name. rewrite Hnative.
  assert (os_path_join OUTPUT_DIR name = name) as Hpath
    by (by rewrite os_path_join_output, Habs).
  rewrite report_saved by (by rewrite Hpath).
  rewrite Hpath. split.
  - unfold after. cbn [trace disk]. by rewrite <- app_assoc.
  - destruct name as [|c name]; [done|]. cbn [Str.startswith] in Habs.
    apply andb_true_iff in Habs as [Hc _].
    apply Ascii.eqb_eq in Hc as <-. reflexivity.
Qed.

Lemma raw_download_absolute_name_witness :
  run (main "https://drive.google.com/file/d/abc/view"
         (sample_service "/tmp/report.pdf" "application/pdf"
            [Chunk [Byte.x25; Byte.x50] false; Chunk [Byte.x44; Byte.x46] true])
         writable_host) empty_world
  = (Return tt,
     World ([] ++ [FilesGet "abc"; NextChunk (GetMedia "abc"); NextChunk (GetMedia "abc");
             Printed "Downloaded /tmp/report.pdf!"; Open "/tmp/report.pdf";
             Written "/tmp/report.pdf" [Byte.x25; Byte.x50; Byte.x44; Byte.x46]])
           (<["/tmp/report.pdf" := [Byte.x25; Byte.x50; Byte.x44; Byte.x46]]> ∅))
  /\ Str.startswith OUTPUT_DIR "/tmp/report.pdf" = false.
Proof.
  apply (raw_download_absolute_name
           "https://drive.google.com/file/d/abc/view"
           (sample_service "/tmp/report.pdf" "application/pdf"
              [Chunk [Byte.x25; Byte.x50] false; Chunk [Byte.x44; Byte.x46] true])
           writable_host "abc" (sample_meta "/tmp/report.pdf" "application/pdf")
           "/tmp/report.pdf" "application/pdf"
           [Chunk [Byte.x25; Byte.x50] false] [Byte.x44; Byte.x46] empty_world);
    try reflexivity.
  by exists [].
Defined.

(** C8. An export that completes: the file name handed to [save_file] is
    the display name followed by the extension [get_file_extension] gives
    for the content type; the file opened and written is
    [os.path.join(OUTPUT_DIR, <that name>)], which ends in exactly that
    name, and it holds the exported bytes. *)
Theorem export_saved_name
    url service host file_id meta name mime_type target oks content w :
  parse_URL url = Return file_id ->
  files_get service file_id = Meta meta ->
  meta !! "name" = Some name ->
  meta !! "mimeType" = Some mime_type ->
  indicates_native mime_type = true ->
  MIME_TYPE_INDEX !! document_type mime_type = Some target ->
  let req := ExportMedia file_id (MIME_TYPE_WORD_PREFIX +:+ "." +:+ target) in
  completes (media service req) oks content ->
  let filename := name +:+ get_file_extension mime_type in
  let path := os_path_join OUTPUT_DIR filename in
  openable host path = true ->
  run (main url service host) w =
  (Return tt,
   World (trace w ++ FilesGet file_id :: replicate (S (length oks)) (NextChunk req)
            ++ [Printed ("Downloaded " +:+ filename +:+ "!");
                Open path; Written path (payload oks ++ content)])
         (<[path := payload oks ++ content]> (disk w)))
  /\ (path = OUTPUT_DIR +:+ filename \/ path = filename).
Proof.
  intros Hurl Hmeta Hname Hmime Hnative Hidx req Hdone filename path Hopen.
  rewrite (main_completes _ _ host _ _ _ _ _ _ _ w Hurl Hmeta Hname Hmime
             (request_of_export _ _ _ Hnative Hidx) Hdone).
  unfold saved_name. rewrite Hnative. fold filename.
  rewrite report_saved by done. fold path. split.
  - unfold after. cbn [trace disk]. by rewrite <- app_assoc.
  - unfold path. rewrite os_path_join_output.
    destruct (Str.startswith "/" filename); auto.
Qed.

Lemma export_saved_name_witness :
  run (main "https://docs.google.com/document/d/abc/edit"
         (sample_service "notes" "application/vnd.google-apps.document"
            [Chunk [Byte.x50; Byte.x4b] true])
         writable_host) empty_world
  = (Return tt,
     World ([] ++ [FilesGet "abc";
             NextChunk (ExportMedia "abc"
               "application/vnd.openxmlformats-officedocument.wordprocessingml.document");
             Printed "Downloaded notes.docx!"; Open "output/notes.docx";
             Written "output/notes.docx" [Byte.x50; Byte.x4b]])
           (<["output/notes.docx" := [Byte.x50; Byte.x4b]]> ∅)).
Proof.
  apply (export_saved_name
           "https://docs.google.com/document/d/abc/edit"
           (sample_service "notes" "application/vnd.google-apps.document"
              [Chunk [Byte.x50; Byte.x4b] true])
           writable_host "abc" (sample_meta "notes" "application/vnd.google-apps.document")
           "notes" "application/vnd.google-apps.document" "wordprocessingml.document"
           [] [Byte.x50; Byte.x4b] empty_world);
    try reflexivity.
  by exists [].
Defined.

(** C9. On the success path (either strategy) the line
    [Downloaded <name>!] is printed before the file is opened and written:
    in the trace it comes after the requests, which touch no file, and
    before [Open].  When the host refuses the file, the run ends in
    [OSError] with the confirmation already printed and the disk
    unchanged. *)
Theorem confirmation_before_write
    url service host file_id meta name mime_type req oks content w :
  parse_URL url = Return file_id ->
  files_get service file_id = Meta meta ->
  meta !! "name" = Some name ->
  meta !! "mimeType" = Some mime_type ->
  request_of file_id mime_type = Some req ->
  completes (media service req) oks content ->
  let filename := saved_name name mime_type in
  let path := os_path_join OUTPUT_DIR filename in
  let requests := FilesGet file_id :: replicate (S (length oks)) (NextChunk req) in
  let confirmation := Printed ("Downloaded " +:+ filename +:+ "!") in
  Forall (fun e => is_file_access e = false) requests
  /\ (openable host path = true ->
      run (main url service host) w =
      (Return tt,
       World (trace w ++ requests
                ++ [confirmation; Open path; Written path (payload oks ++ content)])
             (<[path := payload oks ++ content]> (disk w))))
  /\ (openable host path = false ->
      run (main url service host) w =
      (Raise (OSError path), after w (requests ++ [confirmation; Open path]))).
Proof.
  intros Hurl Hmeta Hname Hmime Hreq Hdone filename path requests confirmation.
  rewrite (main_completes _ _ host _ _ _ _ _ _ _ w Hurl Hmeta Hname Hmime Hreq Hdone).
  fold filename requests. split; [|split].
  - apply Forall_cons. split; [done|]. by apply Forall_replicate.
  - intros Hopen. rewrite report_saved by done. fold path confirmation.
    unfold after. cbn [trace disk]. by rewrite <- app_assoc.
  - intros Hopen. rewrite report_not_saved by done. fold path confirmation.
    by rewrite after_after.
Qed.

Lemma confirmation_before_write_witness :
  run (main "https://drive.google.com/file/d/abc/view"
         (sample_service "a.bin" "application/octet-stream" [Chunk [Byte.x01] true])
         read_only_host) empty_world
  = (Raise (OSError "output/a.bin"),
     after empty_world
       [FilesGet "abc"; NextChunk (GetMedia "abc");
        Printed "Downloaded a.bin!"; Open "output/a.bin"]).
Proof.
  apply (confirmation_before_write
           "https://drive.google.com/file/d/abc/view"
           (sample_service "a.bin" "application/octet-stream" [Chunk [Byte.x01] true])
           read_only_host "abc" (sample_meta "a.bin" "application/octet-stream")
           "a.bin" "application/octet-stream" (GetMedia "abc") [] [Byte.x01]
           empty_world); try reflexivity.
  by exists [].
Defined.

(** C10. On the failure path the last line printed is the literal
    [Failed to download file with id {file_id}...]: the same line for
    every URL and identifier, with the placeholder text in it. *)
Theorem failure_message_literal
    url service host file_id meta name mime_type req oks error w :
  parse_URL url = Return file_id ->
  files_get service file_id = Meta meta ->
  meta !! "name" = Some name ->
  meta !! "mimeType" = Some mime_type ->
  request_of file_id mime_type = Some req ->
  fails_at (media service req) oks error ->
  exists line,
    List.last (trace (run (main url service host) w).2) (FilesGet file_id) = Printed line
    /\ line = "Failed to download file with id {file_id}..."
    /\ line = "Failed to download file with id " +:+ "{file_id}" +:+ "...".
Proof.
  intros Hurl Hmeta Hname Hmime Hreq Hfail.
  rewrite (main_fails _ _ host _ _ _ _ _ _ _ w Hurl Hmeta Hname Hmime Hreq Hfail).
  eexists. split; [|split; reflexivity].
  unfold after. cbn [snd trace].
  change (FilesGet file_id :: ?l) with ([FilesGet file_id] ++ l).
  rewrite !app_assoc.
  change [?a; ?b] with ([a] ++ [b]). rewrite app_assoc.
  by rewrite last_last.
Qed.

Lemma failure_message_literal_witness :
  exists line,
    List.last
      (trace (run (main "https://drive.google.com/file/d/1aBcD_23xyZ/view"
                     (sample_service "a.bin" "application/octet-stream" [ChunkError "500"])
                     writable_host) empty_world).2) (FilesGet "1aBcD_23xyZ") = Printed line
    /\ line = "Failed to download file with id {file_id}..."
    /\ line = "Failed to download file with id " +:+ "{file_id}" +:+ "...".
Proof.
  apply (failure_message_literal
           "https://drive.google.com/file/d/1aBcD_23xyZ/view"
           (sample_service "a.bin" "application/octet-stream" [ChunkError "500"])
           writable_host "1aBcD_23xyZ" (sample_meta "a.bin" "application/octet-stream")
           "a.bin" "application/octet-stream" (GetMedia "1aBcD_23xyZ") [] "500"
           empty_world); try reflexivity.
  by exists [].
Defined.

(** ** What a computation adds to the trace *)

Section Emits.

Context (P : event -> Prop).

Lemma emits_ret {A} (a : A) : emits P (mret a : M A).
Proof. intros w. exists []. by rewrite app_nil_r. Qed.

Lemma emits_raise {A} e : emits P (raise e : M A).
Proof. intros w. exists []. by rewrite app_nil_r. Qed.

Lemma emits_block {A} : emits P (block : M A).
Proof. intros w. exists []. by rewrite app_nil_r. Qed.

Lemma emits_lift {A} (o : outcome A) : emits P (lift o).
Proof. intros w. exists []. by rewrite app_nil_r. Qed.

Lemma emits_emit e : P e -> emits P (emit e).
Proof. intros He w. exists [e]. split; [done|]. by constructor. Qed.

Lemma emits_write path data : P (Written path data) -> emits P (write path data).
Proof. intros He w. exists [Written path data]. split; [done|]. by constructor. Qed.

Lemma emits_bind {A B} (m : M A) (f : A -> M B) :
  emits P m -> (forall a, emits P (f a)) -> emits P (m ≫= f).
Proof.
  intros Hm Hf w. rewrite run_bind.
  destruct (Hm w) as (evs & Htr & Hevs).
  destruct (run m w) as [[a|e|] w1]; simpl in Htr; [|by exists evs..].
  destruct (Hf a w1) as (evs' & Htr' & Hevs').
  exists (evs ++ evs'). rewrite Htr', Htr, app_assoc.
  split; [done|]. by apply Forall_app.
Qed.

Lemma emits_try {A} (body : M A) handler :
  emits P body -> (forall error, emits P (handler error)) ->
  emits P (try_except_HttpError body handler).
Proof.
  intros Hm Hh w. rewrite run_try.
  destruct (Hm w) as (evs & Htr & Hevs).
  destruct (run body w) as [[a|[]|] w1]; simpl in Htr; try by exists evs.
  destruct (Hh error w1) as (evs' & Htr' & Hevs').
  exists (evs ++ evs'). rewrite Htr', Htr, app_assoc.
  split; [done|]. by apply Forall_app.
Qed.

Lemma emits_download_loop req replies file :
  P (NextChunk req) -> emits P (download_loop req replies file).
Proof.
  intros He w. rewrite download_loop_run. eexists. split; [reflexivity|].
  by apply Forall_replicate.
Qed.

Lemma emits_try_transfer req service :
  P (NextChunk req) -> (forall line, P (Printed line)) ->
  emits P (try_transfer req service).
Proof.
  intros He Hp. apply emits_try.
  - apply emits_bind; [by apply emits_download_loop|]. intros. apply emits_ret.
  - intros. apply emits_bind; [by apply emits_emit|]. intros. apply emits_ret.
Qed.

Lemma emits_download_file file_id service :
  P (NextChunk (GetMedia file_id)) -> (forall line, P (Printed line)) ->
  emits P (download_file file_id service).
Proof. apply emits_try_transfer. Qed.

Lemma emits_export_file file_id mime_type service :
  (forall target, P (NextChunk (ExportMedia file_id target))) ->
  (forall line, P (Printed line)) ->
  emits P (export_file file_id mime_type service).
Proof.
  intros He Hp. apply emits_bind.
  - unfold getitem. destruct (_ !! _); [apply emits_ret | apply emits_raise].
  - intros target. by apply (emits_try_transfer (ExportMedia file_id _)).
Qed.

Lemma emits_retrieve url file_id name mime_type service :
  (if indicates_native mime_type
   then forall target, P (NextChunk (ExportMedia file_id target))
   else forall file_id', P (NextChunk (GetMedia file_id'))) ->
  (forall line, P (Printed line)) ->
  emits P (retrieve url file_id name mime_type service).
Proof.
  unfold indicates_native, retrieve. intros He Hp.
  destruct (Str.startswith _ mime_type).
  - apply emits_bind; [by apply emits_export_file|]. intros. apply emits_ret.
  - apply emits_bind; [apply emits_lift|]. intros file_id'.
    apply emits_bind; [by apply emits_download_file|]. intros. apply emits_ret.
Qed.

Lemma emits_report host file_media name :
  (forall line, P (Printed line)) -> (forall path, P (Open path)) ->
  (forall path data, P (Written path data)) ->
  emits P (report host file_media name).
Proof.
  intros Hp Ho Hw. destruct file_media as [file|]; [|by apply emits_emit].
  apply emits_bind; [by apply emits_emit|]. intros _.
  apply emits_bind; [by apply emits_emit|]. intros _.
  destruct (openable _ _); [by apply emits_write | apply emits_raise].
Qed.

End Emits.

Section StartsWith.

Lemma starts_with_bind {A B} e (m : M A) (f : A -> M B) :
  starts_with e m -> (forall a, emits (fun _ => True) (f a)) ->
  starts_with e (m ≫= f).
Proof.
  intros Hm Hf w. rewrite run_bind.
  destruct (Hm w) as (evs & Htr).
  destruct (run m w) as [[a|x|] w1]; simpl in Htr; [|by exists evs..].
  destruct (Hf a w1) as (evs' & Htr' & _).
  exists (evs ++ evs'). by rewrite Htr', Htr, <- app_assoc.
Qed.

Lemma starts_with_try_transfer req service :
  starts_with (NextChunk req) (try_transfer req service).
Proof.
  intros w. rewrite try_transfer_run. cbv zeta.
  assert (exists n, calls (media service req) = S n) as [n ->]
    by (destruct (media service req) as [|[? [|]|?] ?]; simpl; eauto).
  destruct (loop_result _ _) as [file|[]|]; cbn [snd after trace replicate];
    try by eexists.
  rewrite <- app_assoc. by eexists.
Qed.

Lemma starts_with_retrieve_download url file_id name mime_type service :
  indicates_native mime_type = false ->
  parse_URL url = Return file_id ->
  starts_with (NextChunk (GetMedia file_id))
    (retrieve url file_id name mime_type service).
Proof.
  unfold indicates_native, retrieve. intros -> Hurl w.
  rewrite run_bind, run_lift, Hurl.
  apply (starts_with_bind _ (download_file file_id service));
    [apply starts_with_try_transfer | intros; apply emits_ret].
Qed.

Lemma starts_with_retrieve_export url file_id name mime_type target service :
  indicates_native mime_type = true ->
  MIME_TYPE_INDEX !! document_type mime_type = Some target ->
  starts_with (NextChunk (ExportMedia file_id (MIME_TYPE_WORD_PREFIX +:+ "." +:+ target)))
    (retrieve url file_id name mime_type service).
Proof.
  unfold indicates_native, retrieve. intros -> Hidx.
  apply starts_with_bind; [|intros; apply emits_ret].
  intros w. rewrite (export_file_run _ _ _ _ _ Hidx).
  apply starts_with_try_transfer.
Qed.

End StartsWith.

(** ** The choice of strategy *)

(** The events of a run by the prefix test of the main block. *)
Lemma strategy_events
    url service host file_id meta name mime_type w :
  parse_URL url = Return file_id ->
  files_get service file_id = Meta meta ->
  meta !! "name" = Some name ->
  meta !! "mimeType" = Some mime_type ->
  (indicates_native "application/vnd.google-apps.document" = true
   /\ indicates_native "application/vnd.google-apps.spreadsheet" = true
   /\ indicates_native "application/vnd.google-apps.presentation" = true)
  /\ exists evs,
      trace (run (main url service host) w).2 = trace w ++ FilesGet file_id :: evs
      /\ (indicates_native mime_type = true ->
          Forall (fun e => is_download e = false) evs
          /\ forall target,
               MIME_TYPE_INDEX !! document_type mime_type = Some target ->
               head evs = Some (NextChunk (ExportMedia file_id
                                  (MIME_TYPE_WORD_PREFIX +:+ "." +:+ target))))
      /\ (indicates_native mime_type = false ->
          Forall (fun e => is_export e = false) evs
          /\ head evs = Some (NextChunk (GetMedia file_id))).
Proof.
  intros Hurl Hmeta Hname Hmime. split; [done|].
  rewrite (main_run _ _ host _ _ _ _ w Hurl Hmeta Hname Hmime).
  set (m := retrieve _ _ _ _ _ ≫= _). set (w1 := after w [FilesGet file_id]).
  assert (forall P : event -> Prop,
            (if indicates_native mime_type
             then forall target, P (NextChunk (ExportMedia file_id target))
             else forall file_id', P (NextChunk (GetMedia file_id'))) ->
            (forall line, P (Printed line)) -> (forall path, P (Open path)) ->
            (forall path data, P (Written path data)) -> emits P m) as Hemits.
  { intros P He Hp Ho Hw. apply emits_bind; [by apply emits_retrieve|].
    intros [file_media name']. by apply emits_report. }
  assert (forall e, starts_with e (retrieve url file_id name mime_type service) ->
                    starts_with e m) as Hstarts.
  { intros e He. apply starts_with_bind; [done|].
    intros [file_media name']. by apply emits_report. }
  destruct (indicates_native mime_type) eqn:Hnative.
  - destruct (Hemits (fun e => is_download e = false)) with (w := w1)
      as (evs & Htr & Hevs); try done.
    exists evs. split; [by rewrite Htr; unfold w1; simpl; rewrite <- app_assoc|].
    split; [|done]. intros _. split; [done|]. intros target Hidx.
    destruct (Hstarts _ (starts_with_retrieve_export url _ name _ _ service Hnative Hidx) w1)
      as (evs' & Htr').
    rewrite Htr in Htr'. by apply app_inv_head in Htr' as ->.
  - destruct (Hemits (fun e => is_export e = false)) with (w := w1)
      as (evs & Htr & Hevs); try done.
    exists evs. split; [by rewrite Htr; unfold w1; simpl; rewrite <- app_assoc|].
    split; [done|]. intros _. split; [done|].
    destruct (Hstarts _ (starts_with_retrieve_download url _ name _ service Hnative Hurl) w1)
      as (evs' & Htr').
    rewrite Htr in Htr'. by apply app_inv_head in Htr' as ->.
Qed.


Lemma startswith_iff prefix s :
  Str.startswith prefix s = true <-> exists rest, s = prefix +:+ rest.
Proof.
  revert s. induction prefix as [|a prefix IH]; intros s; simpl.
  - split; [by exists s | done].
  - destruct s as [|b s]; [split; [done | by intros (? & ?)]|].
    rewrite andb_true_iff, IH. split.
    + intros [<-%Ascii.eqb_eq (rest & ->)]. by exists rest.
    + intros (rest & [= -> ->]). split; [apply Ascii.eqb_refl | by exists rest].
Qed.

Lemma indicates_native_iff mime_type :
  indicates_native mime_type = true <-> has_native_prefix mime_type.
Proof. apply startswith_iff. Qed.

(** C4, as amended.  The strategy is selected by the prefix of the
    content type, and the two strategies exclude each other.  In a run
    whose metadata fetch succeeds, with [evs] the events after the metadata
    request: when the content type begins with
    [application/vnd.google-apps], no chunk of a raw download is ever
    requested, for a subtype of the table the first event is a chunk request
    of the export, and for any other subtype nothing is requested at all;
    when the content type does not begin with it, no chunk of an export is
    ever requested and the first event is a chunk request of the raw
    download.  The document, spreadsheet and presentation types begin with
    the prefix, and so do others, such as the drawing type. *)
Theorem strategy_by_prefix
    url service host file_id meta name mime_type w :
  parse_URL url = Return file_id ->
  files_get service file_id = Meta meta ->
  meta !! "name" = Some name ->
  meta !! "mimeType" = Some mime_type ->
  (has_native_prefix "application/vnd.google-apps.document"
   /\ has_native_prefix "application/vnd.google-apps.spreadsheet"
   /\ has_native_prefix "application/vnd.google-apps.presentation"
   /\ has_native_prefix "application/vnd.google-apps.drawing")
  /\ exists evs,
      trace (run (main url service host) w).2 = trace w ++ FilesGet file_id :: evs
      /\ (has_native_prefix mime_type ->
          Forall (fun e => is_download e = false) evs
          /\ (forall target,
                MIME_TYPE_INDEX !! document_type mime_type = Some target ->
                head evs = Some (NextChunk (ExportMedia file_id
                                   (MIME_TYPE_WORD_PREFIX +:+ "." +:+ target))))
          /\ (MIME_TYPE_INDEX !! document_type mime_type = None -> evs = []))
      /\ (~ has_native_prefix mime_type ->
          Forall (fun e => is_export e = false) evs
          /\ head evs = Some (NextChunk (GetMedia file_id))).
Proof.
  intros Hurl Hmeta Hname Hmime. split.
  { repeat split; eexists; reflexivity. }
  destruct (strategy_events url service host file_id meta name mime_type w
              Hurl Hmeta Hname Hmime) as (_ & evs & Htr & Hexport & Hraw).
  exists evs. split; [done|]. split.
  - intros Hnative%indicates_native_iff.
    destruct (Hexport Hnative) as [Hall Hhead]. repeat split; [done..|].
    intros Hidx.
    rewrite (main_retriever_run _ _ host _ _ _ _ w Hurl Hmeta Hname Hmime) in Htr.
    unfold retriever in Htr. rewrite Hnative, export_file_unsupported in Htr by done.
    cbn [snd after trace] in Htr.
    apply app_inv_head in Htr. by injection Htr.
  - intros Hnot. apply Hraw.
    destruct (indicates_native mime_type) eqn:Hnative; [|done].
    by apply indicates_native_iff in Hnative.
Qed.

Lemma strategy_by_prefix_witness :
  exists evs,
    trace (run (main "https://drive.google.com/file/d/abc/view"
                  (sample_service "a.pdf" "application/pdf" [Chunk [Byte.x01] true])
                  writable_host) empty_world).2
    = trace empty_world ++ FilesGet "abc" :: evs
    /\ Forall (fun e => is_export e = false) evs
    /\ head evs = Some (NextChunk (GetMedia "abc")).
Proof.
  destruct (strategy_by_prefix
              "https://drive.google.com/file/d/abc/view"
              (sample_service "a.pdf" "application/pdf" [Chunk [Byte.x01] true])
              writable_host "abc" (sample_meta "a.pdf" "application/pdf")
              "a.pdf" "application/pdf" empty_world
              eq_refl eq_refl eq_refl eq_refl)
    as (_ & evs & Htr & _ & Hraw).
  assert (~ has_native_prefix "application/pdf") as Hnot.
  { intros H%indicates_native_iff. vm_compute in H. discriminate H. }
  destruct (Hraw Hnot) as [Hall Hhead].
  exists evs. split; [exact Htr|]. split; [exact Hall | exact Hhead].
Defined.

(** C4 as stated fails: the drawing type is not one of the three listed
    types, and yet it is not fetched by raw download: the run takes the
    export path and ends in [KeyError] before any request. *)
Lemma strategy_drawing_counterexample : ~ unlisted_types_download_raw.
Proof.
  intros Hclaim.
  destruct (Hclaim "https://drive.google.com/file/d/abc/view"
              (sample_service "sketch" "application/vnd.google-apps.drawing"
                 [Chunk [Byte.x01] true])
              writable_host "abc"
              (sample_meta "sketch" "application/vnd.google-apps.drawing")
              "sketch" "application/vnd.google-apps.drawing" empty_world
              eq_refl eq_refl eq_refl eq_refl)
    as (evs & Htr & Hhead).
  - intros [_ Hsub]. vm_compute in Hsub.
    destruct Hsub as [Hsub|[Hsub|Hsub]]; discriminate Hsub.
  - vm_compute in Htr. destruct evs; discriminate.
Qed.

Example drawing_takes_export_path :
  run (main "https://drive.google.com/file/d/abc/view"
         (sample_service "sketch" "application/vnd.google-apps.drawing"
            [Chunk [Byte.x01] true])
         writable_host) empty_world
  = (Raise (KeyError "drawing"), after empty_world [FilesGet "abc"]).
Proof. reflexivity. Qed.

(** * Further properties of the code *)

(** ** The parser under changes of the URL *)

Section ParseURLMore.

#[local] Arguments re_search : simpl never.

Lemma run_ends_app rest suffix :
  run_ends rest = true -> run_ends suffix = true -> run_ends (rest +:+ suffix) = true.
Proof. by destruct rest. Qed.

Lemma re_search_long s tok : re_search s = Some tok -> 4 <= String.length s.
Proof.
  intros (pre & rest & -> & Htok & _)%re_search_Some.
  destruct tok as [|c tok]; [done|].
  induction pre as [|a pre IH]; simpl in *; lia.
Qed.

Lemma starts_match_long s suffix :
  4 <= String.length s -> starts_match (s +:+ suffix) = starts_match s.
Proof.
  destruct s as [|a [|b [|c [|d s]]]]; cbn [String.length]; try lia. intros _.
  unfold starts_match. cbn [String.append Str.strip_prefix].
  destruct (Ascii.eqb _ a); [|done].
  destruct (Ascii.eqb _ b); [|done].
  by destruct (Ascii.eqb _ c).
Qed.

Lemma re_search_suffix s tok suffix :
  re_search s = Some tok -> run_ends suffix = true ->
  re_search (s +:+ suffix) = Some tok.
Proof.
  intros Hs Hsuf. induction s as [|c s IH]; [done|].
  pose proof (re_search_long _ _ Hs) as Hlen.
  rewrite re_search_unfold in Hs. rewrite re_search_unfold.
  destruct (match_here (String c s)) as [t|] eqn:Hhere.
  - injection Hs as ->.
    apply match_here_Some in Hhere as (rest & -> & Htok & Hend).
    replace (("/d/" +:+ tok +:+ rest) +:+ suffix)
      with ("/d/" +:+ tok +:+ (rest +:+ suffix)).
    + rewrite match_here_token; [done..|]. by apply run_ends_app.
    + simpl. do 3 f_equal. clear. induction tok as [|a tok IH]; simpl; by f_equal.
  - apply match_here_None in Hhere.
    rewrite <- (starts_match_long _ suffix Hlen) in Hhere.
    apply match_here_None in Hhere. rewrite Hhere. simpl. by apply IH.
Qed.

End ParseURLMore.

(** X1. What follows the URL does not matter: when a URL parses to an
    identifier, so does the URL with anything appended that does not begin
    with a class character (a query string, a path, a fragment). *)
Theorem parse_URL_suffix url tok suffix :
  parse_URL url = Return tok ->
  run_ends suffix = true ->
  parse_URL (url +:+ suffix) = Return tok.
Proof.
  unfold parse_URL. intros Hurl Hsuf.
  destruct (re_search url) as [t|] eqn:Hs; [|discriminate].
  injection Hurl as ->. by rewrite (re_search_suffix _ _ _ Hs Hsuf).
Qed.

Lemma parse_URL_suffix_witness :
  parse_URL ("https://drive.google.com/file/d/1aBcD_23xyZ" +:+ "?usp=sharing")
  = Return "1aBcD_23xyZ".
Proof. apply parse_URL_suffix; reflexivity. Defined.

(** X2. Round trip: an identifier that [parse_URL] extracted from any URL
    is recovered from the share link built around it. *)
Theorem parse_URL_share_link_round_trip url tok :
  parse_URL url = Return tok ->
  parse_URL ("https://drive.google.com/file/d/" +:+ tok +:+ "/view") = Return tok.
Proof.
  unfold parse_URL. intros Hurl.
  destruct (re_search url) as [t|] eqn:Hs; [|discriminate].
  injection Hurl as ->.
  apply re_search_Some in Hs as (_ & _ & _ & Htok & _).
  change ("https://drive.google.com/file/d/" +:+ tok +:+ "/view")
    with ("https://drive.google.com/file" +:+ "/d/" +:+ tok +:+ "/view").
  rewrite re_search_skip by reflexivity.
  by rewrite re_search_unfold, match_here_token.
Qed.

Lemma parse_URL_share_link_round_trip_witness :
  parse_URL ("https://drive.google.com/file/d/" +:+ "abc-7" +:+ "/view") = Return "abc-7".
Proof.
  apply (parse_URL_share_link_round_trip "docs.google.com/document/d/abc-7/edit").
  reflexivity.
Defined.

(** ** The document subtype *)

Section Split.

Lemma split_dot_nonempty s : Str.split_dot s <> [].
Proof.
  destruct s as [|c s]; simpl; [done|].
  destruct (Ascii.eqb c "."); [done|]. by destruct (Str.split_dot s).
Qed.

(** [(a + "." + b).split(".") == a.split(".") + b.split(".")] *)
Lemma split_dot_app a b :
  Str.split_dot (a +:+ "." +:+ b) = Str.split_dot a ++ Str.split_dot b.
Proof.
  induction a as [|c a IH]; [done|]. simpl in *.
  rewrite IH. destruct (Ascii.eqb c "."); [done|].
  pose proof (split_dot_nonempty a). by destruct (Str.split_dot a).
Qed.

Lemma split_dot_no_dot s :
  Str.all_chars (fun c => negb (Ascii.eqb c ".")) s = true -> Str.split_dot s = [s].
Proof.
  induction s as [|c s IH]; [done|]. simpl.
  intros [Hc Hs]%andb_true_iff. apply negb_true_iff in Hc.
  by rewrite Hc, IH.
Qed.

End Split.

(** X3. [mime_type.split(".")[-1]] is the text after the last dot: for
    [pre.seg] with no dot in [seg] it is [seg], and a content type without
    a dot is its own subtype (so that is the key looked up, and the key of
    the [KeyError]). *)
Theorem document_type_last_segment pre seg :
  Str.all_chars (fun c => negb (Ascii.eqb c ".")) seg = true ->
  document_type (pre +:+ "." +:+ seg) = seg /\ document_type seg = seg.
Proof.
  intros Hseg. unfold document_type, Str.last_segment.
  rewrite split_dot_app, (split_dot_no_dot _ Hseg). split; [|done].
  by rewrite last_last.
Qed.

Lemma document_type_last_segment_witness :
  document_type ("application/vnd.google-apps" +:+ "." +:+ "form") = "form"
  /\ document_type "form" = "form".
Proof. apply document_type_last_segment. reflexivity. Defined.

(** ** The two tables agree *)

(** X4. Whenever [get_file_extension] gives an extension, the content type
    takes the export path, [export_file] finds its subtype in
    [MIME_TYPE_INDEX] (no [KeyError]), and the export format asked for is
    the one the extension names. *)
Theorem extension_matches_export mime_type :
  get_file_extension mime_type <> "" ->
  indicates_native mime_type = true
  /\ exists target,
      MIME_TYPE_INDEX !! document_type mime_type = Some target
      /\ ((get_file_extension mime_type = ".docx" /\ target = "wordprocessingml.document")
          \/ (get_file_extension mime_type = ".xlsx" /\ target = "spreadsheetml.sheet")
          \/ (get_file_extension mime_type = ".pptx"
              /\ target = "presentationml.presentation")).
Proof.
  unfold get_file_extension.
  destruct (String.eqb_spec mime_type "application/vnd.google-apps.document") as [->|_].
  { intros _. split; [done|]. eexists. split; [reflexivity|]. by left. }
  destruct (String.eqb_spec mime_type "application/vnd.google-apps.spreadsheet") as [->|_].
  { intros _. split; [done|]. eexists. split; [reflexivity|]. right. by left. }
  destruct (String.eqb_spec mime_type "application/vnd.google-apps.presentation") as [->|_].
  { intros _. split; [done|]. eexists. split; [reflexivity|]. right. by right. }
  done.
Qed.

Lemma extension_matches_export_witness :
  indicates_native "application/vnd.google-apps.spreadsheet" = true.
Proof.
  apply (extension_matches_export "application/vnd.google-apps.spreadsheet").
  discriminate.
Defined.

(** ** Metadata without the expected keys *)

(** X5. A metadata reply that lacks [name] or [mimeType] is not a
    transport error: the [KeyError] on the missing key is not caught by
    [get_meta], and it ends the run right after the metadata request, before
    any download, export or file access. *)
Theorem meta_missing_key url service host file_id meta w :
  parse_URL url = Return file_id ->
  files_get service file_id = Meta meta ->
  meta !! "name" = None \/ meta !! "mimeType" = None ->
  exists key,
    (key = "name" \/ key = "mimeType") /\ meta !! key = None
    /\ run (get_meta file_id service) w = (Raise (KeyError key), after w [FilesGet file_id])
    /\ run (main url service host) w = (Raise (KeyError key), after w [FilesGet file_id]).
Proof.
  intros Hurl Hmeta Hmissing.
  assert (exists key,
             (key = "name" \/ key = "mimeType") /\ meta !! key = None
             /\ run (get_meta file_id service) w
                = (Raise (KeyError key), after w [FilesGet file_id]))
    as (key & Hkey & Hnone & Hget).
  { unfold get_meta. rewrite run_try, run_bind.
    unfold files_get_execute. rewrite run_bind, run_emit, Hmeta, run_ret.
    cbv beta iota. unfold getitem.
    destruct (meta !! "name") as [name|] eqn:Hname.
    - destruct Hmissing as [|Hmime]; [done|].
      exists "mimeType". rewrite Hmime. auto.
    - exists "name". auto. }
  exists key. repeat split; try done.
  unfold main. by rewrite run_bind, run_lift, Hurl, run_bind, Hget.
Qed.

Lemma meta_missing_key_witness :
  exists key,
    (key = "name" \/ key = "mimeType")
    /\ (<["name" := "a.bin"]> ∅ : gmap string string) !! key = None
    /\ run (get_meta "abc"
              {| files_get := fun _ => Meta (<["name" := "a.bin"]> ∅);
                 media := fun _ => [] |}) empty_world
       = (Raise (KeyError key), after empty_world [FilesGet "abc"])
    /\ run (main "https://drive.google.com/file/d/abc/view"
              {| files_get := fun _ => Meta (<["name" := "a.bin"]> ∅);
                 media := fun _ => [] |} writable_host) empty_world
       = (Raise (KeyError key), after empty_world [FilesGet "abc"]).
Proof.
  apply (meta_missing_key
           "https://drive.google.com/file/d/abc/view"
           {| files_get := fun _ => Meta (<["name" := "a.bin"]> ∅);
              media := fun _ => [] |}
           writable_host "abc" (<["name" := "a.bin"]> ∅) empty_world);
    [reflexivity | reflexivity | right; reflexivity].
Defined.

(** ** The file writer *)

Lemma raw_download_saved_witness :
  run (main "https://drive.google.com/file/d/abc/view"
         (sample_service "report.pdf" "application/pdf"
            [Chunk [Byte.x25; Byte.x50] false; Chunk [Byte.x44; Byte.x46] true])
         writable_host)
      (World [] (<["output/report.pdf" := [Byte.x00]]> ∅))
  = (Return tt,
     World ([] ++ [FilesGet "abc"; NextChunk (GetMedia "abc"); NextChunk (GetMedia "abc");
             Printed "Downloaded report.pdf!"; Open "output/report.pdf";
             Written "output/report.pdf" [Byte.x25; Byte.x50; Byte.x44; Byte.x46]])
           (<["output/report.pdf" := [Byte.x25; Byte.x50; Byte.x44; Byte.x46]]>
              (<["output/report.pdf" := [Byte.x00]]> ∅))).
Proof.
  refine (raw_download_saved
            "https://drive.google.com/file/d/abc/view"
            (sample_service "report.pdf" "application/pdf"
               [Chunk [Byte.x25; Byte.x50] false; Chunk [Byte.x44; Byte.x46] true])
            writable_host "abc" (sample_meta "report.pdf" "application/pdf")
            "report.pdf" "application/pdf"
            [Chunk [Byte.x25; Byte.x50] false] [Byte.x44; Byte.x46]
            (World [] (<["output/report.pdf" := [Byte.x00]]> ∅))
            _ _ _ _ _ _ _ _);
    try reflexivity.
  by exists [].
Defined.

(** X8. Different file names never land on the same path:
    [os.path.join(OUTPUT_DIR, .)] is injective. *)
Theorem os_path_join_output_inj a b :
  a <> b -> os_path_join OUTPUT_DIR a <> os_path_join OUTPUT_DIR b.
Proof.
  intros Hab. rewrite !os_path_join_output.
  destruct (Str.startswith "/" a) eqn:Ha, (Str.startswith "/" b) eqn:Hb; intros H.
  - done.
  - subst a. by vm_compute in Ha.
  - subst b. by vm_compute in Hb.
  - by injection H.
Qed.

Lemma os_path_join_output_inj_witness :
  os_path_join OUTPUT_DIR "a.bin" <> os_path_join OUTPUT_DIR "/a.bin".
Proof. apply os_path_join_output_inj. discriminate. Defined.

(** ** File accesses of a run *)

Section NoFile.














End NoFile.


(** ** The credentials *)

Section InitRun.

Context (auth : Auth) (host : Host).

Lemma session_bind {A B} (m : Prog A) (f : A -> Prog B) s :
  run_session (m ≫= f) s =
  match run_session m s with
  | (Return a, s') => run_session (f a) s'
  | (Raise e, s') => (Raise e, s')
  | (Blocked, s') => (Blocked, s')
  end.
Proof. reflexivity. Qed.

Lemma session_ret {A} (a : A) s : run_session (mret a : Prog A) s = (Return a, s).
Proof. reflexivity. Qed.

Lemma session_token_json s :
  run_session token_json s = (Return (disk (files s) !! "token.json"), s).
Proof. reflexivity. Qed.

Lemma session_auth_call {A} e (answer : outcome A) s :
  run_session (auth_call e answer) s = (answer, Session (auth_log s ++ [e]) (files s)).
Proof. reflexivity. Qed.

Lemma session_in_world {A} (m : M A) s :
  run_session (in_world m) s = ((run m (files s)).1, Session (auth_log s) (run m (files s)).2).
Proof. unfold run_session, in_world, run. by destruct (m (files s)). Qed.

Lemma write_text_run path text w :
  run (write_text host path text) w =
  if openable host path
  then (Return tt,
        World (trace w ++ [Open path; Written path (String.list_byte_of_string text)])
              (<[path := String.list_byte_of_string text]> (disk w)))
  else (Raise (OSError path), after w [Open path]).
Proof.
  unfold write_text. rewrite run_bind, run_emit.
  destruct (openable host path); [|done].
  unfold run, write, after. simpl. by rewrite <- app_assoc.
Qed.

(** The three stages of [init]: load, obtain, build. *)
Lemma init_loaded content c s :
  disk (files s) !! "token.json" = Some content ->
  from_authorized_user_file auth content = Return c ->
  run_session (init auth host) s =
  run_session
    (creds ← (if negb (valid c) then
                c' ← (if expired c && truthy (refresh_token c)
                      then auth_call Refreshed (refresh auth c)
                      else auth_call RanLocalServer (run_local_server auth));
                in_world (write_text host "token.json" (to_json c'));;
                mret c'
              else mret c);
     auth_call (Built (to_json creds)) (build auth creds))
    (Session (auth_log s ++ [LoadedToken]) (files s)).
Proof.
  intros Hdisk Hload. unfold init.
  rewrite session_bind, session_token_json, Hdisk.
  rewrite session_bind, session_bind, session_auth_call, Hload.
  by rewrite session_ret.
Qed.

Lemma init_no_token s :
  disk (files s) !! "token.json" = None ->
  run_session (init auth host) s =
  run_session
    (creds ← (c ← auth_call RanLocalServer (run_local_server auth);
              in_world (write_text host "token.json" (to_json c));;
              mret c);
     auth_call (Built (to_json creds)) (build auth creds)) s.
Proof.
  intros Hdisk. unfold init.
  rewrite session_bind, session_token_json, Hdisk.
  by rewrite session_bind, session_ret.
Qed.

Lemma obtained_run e answer c s :
  answer = Return c ->
  openable host "token.json" = true ->
  run_session
    (creds ← (c' ← auth_call e answer;
              in_world (write_text host "token.json" (to_json c'));;
              mret c');
     auth_call (Built (to_json creds)) (build auth creds)) s
  = (build auth c,
     Session (auth_log s ++ [e; Built (to_json c)]) (token_saved (files s) (to_json c))).
Proof.
  intros -> Hopen. rewrite !session_bind, session_auth_call.
  rewrite session_bind, session_in_world, write_text_run, Hopen.
  cbn [fst snd]. rewrite session_ret, session_auth_call.
  cbn [auth_log files]. by rewrite <- app_assoc.
Qed.

Lemma init_valid_run content c s :
  disk (files s) !! "token.json" = Some content ->
  from_authorized_user_file auth content = Return c ->
  valid c = true ->
  run_session (init auth host) s =
  (build auth c, Session (auth_log s ++ [LoadedToken; Built (to_json c)]) (files s)).
Proof.
  intros Hdisk Hload Hvalid. rewrite (init_loaded _ _ _ Hdisk Hload), Hvalid.
  cbn [negb]. rewrite session_bind, session_ret, session_auth_call.
  cbn [auth_log files]. by rewrite <- app_assoc.
Qed.

End InitRun.

(** X10. Valid cached credentials are used as they are: [init] loads
    [token.json] and builds the service; it does not refresh, does not
    start the interactive login and leaves every file alone. *)
Theorem init_valid_token auth host content c s :
  disk (files s) !! "token.json" = Some content ->
  from_authorized_user_file auth content = Return c ->
  valid c = true ->
  run_session (init auth host) s =
  (build auth c, Session (auth_log s ++ [LoadedToken; Built (to_json c)]) (files s)).
Proof.
  intros Hdisk Hload Hvalid. rewrite (init_loaded _ _ _ _ _ Hdisk Hload), Hvalid.
  cbn [negb]. rewrite session_bind, session_ret, session_auth_call.
  cbn [auth_log files]. by rewrite <- app_assoc.
Qed.

Lemma init_valid_token_witness :
  run_session
    (init (sample_auth (Return (sample_credentials true false (Some "r") "cached"))
             Blocked Blocked (sample_service "a" "b" []))
          read_only_host) session_with_token
  = (Return (sample_service "a" "b" []),
     Session ([] ++ [LoadedToken; Built "cached"]) (files session_with_token)).
Proof.
  refine (init_valid_token
            (sample_auth (Return (sample_credentials true false (Some "r") "cached"))
               Blocked Blocked (sample_service "a" "b" []))
            read_only_host [Byte.x7b; Byte.x7d]
            (sample_credentials true false (Some "r") "cached")
            session_with_token _ _ _); reflexivity.
Defined.

(** X11. Expired credentials with a refresh token are refreshed silently:
    one refresh, no interactive login, and [token.json] is rewritten with
    the refreshed credentials, from which the service is built. *)
Theorem init_refresh auth host content c c' s :
  disk (files s) !! "token.json" = Some content ->
  from_authorized_user_file auth content = Return c ->
  valid c = false ->
  expired c = true ->
  truthy (refresh_token c) = true ->
  refresh auth c = Return c' ->
  openable host "token.json" = true ->
  run_session (init auth host) s =
  (build auth c',
   Session (auth_log s ++ [LoadedToken; Refreshed; Built (to_json c')])
           (token_saved (files s) (to_json c'))).
Proof.
  intros Hdisk Hload Hvalid Hexp Htok Hrefresh Hopen.
  rewrite (init_loaded _ _ _ _ _ Hdisk Hload), Hvalid, Hexp, Htok.
  cbn [negb andb]. rewrite (obtained_run _ _ _ _ c' _ Hrefresh Hopen).
  cbn [auth_log files]. by rewrite <- app_assoc.
Qed.

Lemma init_refresh_witness :
  run_session
    (init (sample_auth (Return (sample_credentials false true (Some "r") "old"))
             (Return (sample_credentials true false (Some "r") "new"))
             Blocked (sample_service "a" "b" []))
          writable_host) session_with_token
  = (Return (sample_service "a" "b" []),
     Session ([] ++ [LoadedToken; Refreshed; Built "new"])
             (token_saved (files session_with_token) "new")).
Proof.
  refine (init_refresh
            (sample_auth (Return (sample_credentials false true (Some "r") "old"))
               (Return (sample_credentials true false (Some "r") "new"))
               Blocked (sample_service "a" "b" []))
            writable_host [Byte.x7b; Byte.x7d]
            (sample_credentials false true (Some "r") "old")
            (sample_credentials true false (Some "r") "new")
            session_with_token _ _ _ _ _ _ _); reflexivity.
Defined.

(** X12. The interactive login runs when there is no [token.json], and
    when the cached credentials are invalid and cannot be refreshed (not
    expired, or no refresh token, the empty string included); no refresh is
    attempted, and [token.json] is written with the new credentials. *)
Theorem init_interactive auth host c' s :
  run_local_server auth = Return c' ->
  openable host "token.json" = true ->
  (disk (files s) !! "token.json" = None ->
   run_session (init auth host) s =
   (build auth c',
    Session (auth_log s ++ [RanLocalServer; Built (to_json c')])
            (token_saved (files s) (to_json c'))))
  /\ (forall content c,
        disk (files s) !! "token.json" = Some content ->
        from_authorized_user_file auth content = Return c ->
        valid c = false ->
        expired c && truthy (refresh_token c) = false ->
        run_session (init auth host) s =
        (build auth c',
         Session (auth_log s ++ [LoadedToken; RanLocalServer; Built (to_json c')])
                 (token_saved (files s) (to_json c')))).
Proof.
  intros Hflow Hopen. split.
  - intros Hdisk. rewrite (init_no_token _ _ _ Hdisk).
    by rewrite (obtained_run _ _ _ _ c' _ Hflow Hopen).
  - intros content c Hdisk Hload Hvalid Hcannot.
    rewrite (init_loaded _ _ _ _ _ Hdisk Hload), Hvalid, Hcannot.
    cbn [negb]. rewrite (obtained_run _ _ _ _ c' _ Hflow Hopen).
    cbn [auth_log files]. by rewrite <- app_assoc.
Qed.

Lemma init_interactive_witness :
  run_session
    (init (sample_auth (Return (sample_credentials false true (Some "") "old"))
             Blocked (Return (sample_credentials true false (Some "q") "fresh"))
             (sample_service "a" "b" []))
          writable_host) session_with_token
  = (Return (sample_service "a" "b" []),
     Session ([] ++ [LoadedToken; RanLocalServer; Built "fresh"])
             (token_saved (files session_with_token) "fresh")).
Proof.
  refine (proj2 (init_interactive
                   (sample_auth (Return (sample_credentials false true (Some "") "old"))
                      Blocked (Return (sample_credentials true false (Some "q") "fresh"))
                      (sample_service "a" "b" []))
                   writable_host (sample_credentials true false (Some "q") "fresh")
                   session_with_token _ _)
                [Byte.x7b; Byte.x7d] (sample_credentials false true (Some "") "old")
                _ _ _ _); reflexivity.
Defined.

(** X13. No fallback: when [token.json] cannot be loaded, or the refresh
    fails, that exception ends [init]; the interactive login is not tried
    and nothing is written. *)
Theorem init_no_fallback auth host content e s :
  disk (files s) !! "token.json" = Some content ->
  (from_authorized_user_file auth content = Raise e ->
   run_session (init auth host) s =
   (Raise e, Session (auth_log s ++ [LoadedToken]) (files s)))
  /\ (forall c,
        from_authorized_user_file auth content = Return c ->
        valid c = false -> expired c = true -> truthy (refresh_token c) = true ->
        refresh auth c = Raise e ->
        run_session (init auth host) s =
        (Raise e, Session (auth_log s ++ [LoadedToken; Refreshed]) (files s))).
Proof.
  intros Hdisk. split.
  - intros Hload. unfold init.
    rewrite session_bind, session_token_json, Hdisk.
    by rewrite session_bind, session_bind, session_auth_call, Hload.
  - intros c Hload Hvalid Hexp Htok Hrefresh.
    rewrite (init_loaded _ _ _ _ _ Hdisk Hload), Hvalid, Hexp, Htok.
    cbn [negb andb]. rewrite !session_bind, session_auth_call, Hrefresh.
    cbn [auth_log files]. by rewrite <- app_assoc.
Qed.

Lemma init_no_fallback_witness :
  run_session
    (init (sample_auth (Raise (ValueError "not in the expected format"))
             Blocked
             (Return (sample_credentials true false (Some "q") "fresh"))
             (sample_service "a" "b" []))
          writable_host) session_with_token
  = (Raise (ValueError "not in the expected format"),
     Session ([] ++ [LoadedToken]) (files session_with_token)).
Proof.
  refine (proj1 (init_no_fallback
                   (sample_auth (Raise (ValueError "not in the expected format"))
                      Blocked
                      (Return (sample_credentials true false (Some "q") "fresh"))
                      (sample_service "a" "b" []))
                   writable_host [Byte.x7b; Byte.x7d]
                   (ValueError "not in the expected format")
                   session_with_token _) _);
    reflexivity.
Defined.

Section InitCases.

Context (auth : Auth) (host : Host).

(** Every way the stage that obtains new credentials can go. *)
Lemma obtained_cases e answer s :
  let r := run_session
             (creds ← (c' ← auth_call e answer;
                       in_world (write_text host "token.json" (to_json c'));;
                       mret c');
              auth_call (Built (to_json creds)) (build auth creds)) s in
  (exists c, answer = Return c
             /\ r = (build auth c,
                     Session (auth_log s ++ [e; Built (to_json c)])
                             (token_saved (files s) (to_json c))))
  \/ (exists c, answer = Return c
                /\ r = (Raise (OSError "token.json"),
                        Session (auth_log s ++ [e]) (after (files s) [Open "token.json"])))
  \/ (r.2 = Session (auth_log s ++ [e]) (files s)
      /\ forall a, r.1 <> Return a).
Proof.
  intros r. destruct answer as [c| |] eqn:Hanswer.
  - destruct (openable host "token.json") eqn:Hopen.
    + left. exists c. split; [done|]. by apply obtained_run.
    + right; left. exists c. split; [done|]. unfold r.
      rewrite !session_bind, session_auth_call.
      by rewrite session_bind, session_in_world, write_text_run, Hopen.
  - right; right. unfold r. by rewrite !session_bind, session_auth_call.
  - right; right. unfold r. by rewrite !session_bind, session_auth_call.
Qed.

(** The same, summed up: only [e] can be a login call, and the only file
    touched is [token.json]; on return the service was built from the
    credentials just saved. *)
Lemma obtained_summary e answer s :
  let r := run_session
             (creds ← (c' ← auth_call e answer;
                       in_world (write_text host "token.json" (to_json c'));;
                       mret c');
              auth_call (Built (to_json creds)) (build auth creds)) s in
  (exists new,
      auth_log r.2 = auth_log s ++ e :: new /\ List.filter is_login new = []
      /\ (files r.2 = files s
          \/ files r.2 = after (files s) [Open "token.json"]
          \/ exists c, files r.2 = token_saved (files s) (to_json c)))
  /\ (forall service,
        r.1 = Return service ->
        exists c new,
          build auth c = Return service
          /\ auth_log r.2 = auth_log s ++ new ++ [Built (to_json c)]
          /\ disk (files r.2) !! "token.json"
             = Some (String.list_byte_of_string (to_json c))).
Proof.
  intros r.
  destruct (obtained_cases e answer s) as [(c & _ & Hr)|[(c & _ & Hr)|[Hr Hno]]];
    fold r in Hr; try rewrite Hr; cbn [fst snd auth_log files].
  - split.
    + exists [Built (to_json c)]. repeat split; eauto.
    + intros service Hbuild. exists c, [e]. repeat split; [done|].
      unfold token_saved. cbn [disk]. by rewrite lookup_insert_eq.
  - split; [|done]. exists []. repeat split; eauto.
  - split; [|intros service Hret; by destruct (Hno service)].
    exists []. repeat split; eauto.
Qed.

End InitCases.

(** X14. In every run of [init], whatever the libraries answer: at most
    one call obtains credentials anew (a refresh or an interactive login,
    never both), the only file that can be touched is [token.json], and it
    is touched only after such a call. *)
Theorem init_at_most_one_login auth host s :
  exists new,
    auth_log (run_session (init auth host) s).2 = auth_log s ++ new
    /\ length (List.filter is_login new) <= 1
    /\ (files (run_session (init auth host) s).2 = files s
        \/ files (run_session (init auth host) s).2 = after (files s) [Open "token.json"]
        \/ exists c,
             files (run_session (init auth host) s).2 = token_saved (files s) (to_json c))
    /\ (List.filter is_login new = [] -> files (run_session (init auth host) s).2 = files s).
Proof.
  destruct (disk (files s) !! "token.json") as [content|] eqn:Hdisk.
  - destruct (from_authorized_user_file auth content) as [c|e|] eqn:Hload.
    + destruct (valid c) eqn:Hvalid.
      * rewrite (init_valid_run _ _ _ _ _ Hdisk Hload Hvalid).
        exists [LoadedToken; Built (to_json c)]. cbn. repeat split; auto.
      * rewrite (init_loaded _ _ _ _ _ Hdisk Hload), Hvalid. cbn [negb].
        destruct (expired c && truthy (refresh_token c)).
        -- destruct (obtained_summary auth host Refreshed (refresh auth c)
                       (Session (auth_log s ++ [LoadedToken]) (files s)))
             as [(new & Hlog & Hnew & Hfiles) _].
           exists (LoadedToken :: Refreshed :: new).
           rewrite Hlog. cbn [auth_log files List.filter is_login] in *.
           rewrite Hnew, <- app_assoc. repeat split; [simpl; lia|done|done].
        -- destruct (obtained_summary auth host RanLocalServer (run_local_server auth)
                       (Session (auth_log s ++ [LoadedToken]) (files s)))
             as [(new & Hlog & Hnew & Hfiles) _].
           exists (LoadedToken :: RanLocalServer :: new).
           rewrite Hlog. cbn [auth_log files List.filter is_login] in *.
           rewrite Hnew, <- app_assoc. repeat split; [simpl; lia|done|done].
    + unfold init. rewrite session_bind, session_token_json, Hdisk.
      rewrite session_bind, session_bind, session_auth_call, Hload.
      exists [LoadedToken]. cbn. repeat split; auto.
    + unfold init. rewrite session_bind, session_token_json, Hdisk.
      rewrite session_bind, session_bind, session_auth_call, Hload.
      exists [LoadedToken]. cbn. repeat split; auto.
  - rewrite (init_no_token _ _ _ Hdisk).
    destruct (obtained_summary auth host RanLocalServer (run_local_server auth) s)
      as [(new & Hlog & Hnew & Hfiles) _].
    exists (RanLocalServer :: new).
    rewrite Hlog. cbn [List.filter is_login]. rewrite Hnew.
    repeat split; [simpl; lia|done|done].
Qed.

(** X15. When [init] returns a service, it was built from the credentials
    in use, and what is on disk matches them: either they are the valid
    ones loaded from [token.json] and no file was touched, or [token.json]
    now holds exactly their JSON. *)
Theorem init_token_matches_service auth host s service s' :
  run_session (init auth host) s = (Return service, s') ->
  exists c new,
    build auth c = Return service
    /\ auth_log s' = auth_log s ++ new ++ [Built (to_json c)]
    /\ ((valid c = true /\ files s' = files s
         /\ exists content, disk (files s) !! "token.json" = Some content
                            /\ from_authorized_user_file auth content = Return c)
        \/ disk (files s') !! "token.json" = Some (String.list_byte_of_string (to_json c))).
Proof.
  destruct (disk (files s) !! "token.json") as [content|] eqn:Hdisk.
  - destruct (from_authorized_user_file auth content) as [c|e|] eqn:Hload.
    + destruct (valid c) eqn:Hvalid.
      * rewrite (init_valid_run _ _ _ _ _ Hdisk Hload Hvalid). intros [= Hbuild <-].
        exists c, [LoadedToken]. cbn [auth_log files]. repeat split; [done|].
        left. eauto.
      * rewrite (init_loaded _ _ _ _ _ Hdisk Hload), Hvalid. cbn [negb].
        destruct (expired c && truthy (refresh_token c)); intros Hrun;
          match type of Hrun with
          | run_session (_ ← (_ ← auth_call ?e ?answer; _); _) ?s0 = _ =>
              destruct (obtained_summary auth host e answer s0) as [_ Hret]
          end;
          rewrite Hrun in Hret; destruct (Hret service eq_refl) as (c' & new & Hb & Hlog & Hd);
          exists c', (LoadedToken :: new); cbn [snd auth_log] in *;
          rewrite Hlog, <- !app_assoc; auto.
    + unfold init. rewrite session_bind, session_token_json, Hdisk.
      by rewrite session_bind, session_bind, session_auth_call, Hload.
    + unfold init. rewrite session_bind, session_token_json, Hdisk.
      by rewrite session_bind, session_bind, session_auth_call, Hload.
  - rewrite (init_no_token _ _ _ Hdisk). intros Hrun.
    destruct (obtained_summary auth host RanLocalServer (run_local_server auth) s)
      as [_ Hret].
    rewrite Hrun in Hret. destruct (Hret service eq_refl) as (c' & new & Hb & Hlog & Hd).
    exists c', new. cbn [snd] in *. auto.
Qed.

Lemma init_token_matches_service_witness :
  exists c new,
    build (sample_auth (Return (sample_credentials false true (Some "r") "old"))
             (Return (sample_credentials true false (Some "r") "new"))
             Blocked (sample_service "a" "b" [])) c
    = Return (sample_service "a" "b" [])
    /\ [LoadedToken; Refreshed; Built "new"] = [] ++ new ++ [Built (to_json c)]
    /\ ((valid c = true /\ token_saved (files session_with_token) "new"
                           = files session_with_token
         /\ exists content,
              disk (files session_with_token) !! "token.json" = Some content
              /\ Return (sample_credentials false true (Some "r") "old") = Return c)
        \/ disk (token_saved (files session_with_token) "new") !! "token.json"
           = Some (String.list_byte_of_string (to_json c))).
Proof.
  refine (init_token_matches_service
            (sample_auth (Return (sample_credentials false true (Some "r") "old"))
               (Return (sample_credentials true false (Some "r") "new"))
               Blocked (sample_service "a" "b" []))
            writable_host session_with_token (sample_service "a" "b" [])
            (Session [LoadedToken; Refreshed; Built "new"]
               (token_saved (files session_with_token) "new")) _).
  reflexivity.
Defined.

(** ** The whole block *)

Section MainBlock.

Lemma parse_URL_invalid url :
  ~ contains_token url -> parse_URL url = Raise (ValueError "Invalid URL").
Proof.
  intros Hno. unfold parse_URL.
  destruct (re_search url) as [tok|] eqn:Hs; [|done].
  destruct Hno. apply re_search_Some in Hs as (pre & rest & -> & Htok & _).
  by exists pre, tok, rest.
Qed.


End MainBlock.

(** X16. An invalid URL is rejected before anything else happens: the
    whole block ends in [ValueError("Invalid URL")] with the session as it
    was: [token.json] is not read, no login or refresh is attempted, no
    request is sent and no file is touched. *)
Theorem main_block_invalid_url url auth host s :
  ~ contains_token url ->
  run_session (main_block url auth host) s = (Raise (ValueError "Invalid URL"), s).
Proof.
  intros Hno. unfold main_block.
  rewrite session_bind, session_in_world, run_lift, (parse_URL_invalid _ Hno).
  by destruct s.
Qed.

Lemma main_block_invalid_url_witness :
  run_session
    (main_block "https://drive.google.com/drive/folders/xyz"
       (sample_auth Blocked Blocked Blocked (sample_service "a" "b" [])) writable_host)
    fresh_session
  = (Raise (ValueError "Invalid URL"), fresh_session).
Proof.
  apply main_block_invalid_url.
  intros H%any_match_iff. vm_compute in H. discriminate H.
Defined.


(** ** File accesses of the whole block *)

Section FileAccesses.





End FileAccesses.

